(** * gobreaker: the circuit-breaker state machine of [gobreaker.go]

    A shallow embedding of the breaker (counters, lazy time-driven
    transitions, generations, admission and outcome recording, the
    [Execute] wrapper and the two-step variant) followed by the
    properties its specification states.

    Modelling conventions.
    - [uint32] and [uint64] fields are integers of [Z]; every [++] of the
      source is written with its wrap-around ([wrap32], [wrap64]).
    - [time.Time] is an instant on one linear time line, a [Z] counting
      nanoseconds from the zero instant ([IsZero] tests for it, [Before]
      is the strict order, [Add] the sum); [time.Duration] is a [Z] of
      nanoseconds.  Each [time.Now()] of the source is a parameter of the
      operation that reads it.
    - The mutex is not modelled: each locked section is one atomic
      function on the store.  The store is the breaker together with the
      world [W] the state-change observer acts on.
    - An [error] is [None] for [nil] and [Some e] otherwise.
    - The callbacks of the settings are total functions; the observer
      acts on [W] only.
    - A panic carries a payload of an abstract type [V]; [recover()]
      returns it (a non-nil value) when the request panicked. *)

From Stdlib Require Import ZArith Bool List String Lia.
Import ListNotations.
Local Open Scope Z_scope.

(** ** Machine integers, time *)

Definition wrap32 (z : Z) : Z := z mod 2 ^ 32.
Definition wrap64 (z : Z) : Z := z mod 2 ^ 64.

Arguments wrap32 : simpl never.
Arguments wrap64 : simpl never.

Definition Time := Z.
Definition Duration := Z.

Definition zeroTime : Time := 0.
Definition IsZero (t : Time) : bool := t =? 0.
Definition Before (t u : Time) : bool := t <? u.
Definition Add (t : Time) (d : Duration) : Time := t + d.

Definition Second : Duration := 1000000000.

(** ** States and errors *)

Inductive State : Type :=
| StateClosed
| StateHalfOpen
| StateOpen.

Definition State_eqb (a b : State) : bool :=
  match a, b with
  | StateClosed, StateClosed => true
  | StateHalfOpen, StateHalfOpen => true
  | StateOpen, StateOpen => true
  | _, _ => false
  end.

Inductive errval : Type :=
| ErrTooManyRequests
| ErrOpenState
| OtherError (msg : string).

Definition error := option errval.

(** ** Counts *)

Record Counts : Type := mkCounts {
  Requests : Z;
  TotalSuccesses : Z;
  TotalFailures : Z;
  ConsecutiveSuccesses : Z;
  ConsecutiveFailures : Z
}.

Definition Counts_onRequest (c : Counts) : Counts :=
  mkCounts (wrap32 (Requests c + 1)) (TotalSuccesses c) (TotalFailures c)
           (ConsecutiveSuccesses c) (ConsecutiveFailures c).

Definition Counts_onSuccess (c : Counts) : Counts :=
  mkCounts (Requests c) (wrap32 (TotalSuccesses c + 1)) (TotalFailures c)
           (wrap32 (ConsecutiveSuccesses c + 1)) 0.

Definition Counts_onFailure (c : Counts) : Counts :=
  mkCounts (Requests c) (TotalSuccesses c) (wrap32 (TotalFailures c + 1))
           0 (wrap32 (ConsecutiveFailures c + 1)).

Definition Counts_clear (c : Counts) : Counts := mkCounts 0 0 0 0 0.

Definition zeroCounts : Counts := mkCounts 0 0 0 0 0.

(** ** Settings and the breaker *)

Definition Observer (W : Type) : Type := string -> State -> State -> W -> W.

Record Settings (W : Type) : Type := mkSettings {
  Name : string;
  MaxRequests : Z;
  Interval : Duration;
  Timeout : Duration;
  ReadyToTrip : option (Counts -> bool);
  OnStateChange : option (Observer W);
  IsSuccessful : option (error -> bool)
}.

Arguments mkSettings {W}.
Arguments Name {W}.
Arguments MaxRequests {W}.
Arguments Interval {W}.
Arguments Timeout {W}.
Arguments ReadyToTrip {W}.
Arguments OnStateChange {W}.
Arguments IsSuccessful {W}.

Record CircuitBreaker (W : Type) : Type := mkCircuitBreaker {
  name : string;
  maxRequests : Z;
  interval : Duration;
  timeout : Duration;
  readyToTrip : Counts -> bool;
  isSuccessful : error -> bool;
  onStateChange : option (Observer W);
  state : State;
  generation : Z;
  counts : Counts;
  expiry : Time
}.

Arguments mkCircuitBreaker {W}.
Arguments name {W}.
Arguments maxRequests {W}.
Arguments interval {W}.
Arguments timeout {W}.
Arguments readyToTrip {W}.
Arguments isSuccessful {W}.
Arguments onStateChange {W}.
Arguments state {W}.
Arguments generation {W}.
Arguments counts {W}.
Arguments expiry {W}.

Definition defaultInterval : Duration := 0 * Second.
Definition defaultTimeout : Duration := 60 * Second.

Definition defaultReadyToTrip (c : Counts) : bool :=
  5 <? ConsecutiveFailures c.

Definition defaultIsSuccessful (err : error) : bool :=
  match err with
  | None => true
  | Some _ => false
  end.

Section Breaker.

Context {W : Type}.

(** The store the locked sections act on. *)
Definition Store : Type := (CircuitBreaker W * W)%type.

Definition set_state (st : State) (cb : CircuitBreaker W) : CircuitBreaker W :=
  mkCircuitBreaker (name cb) (maxRequests cb) (interval cb) (timeout cb)
    (readyToTrip cb) (isSuccessful cb) (onStateChange cb)
    st (generation cb) (counts cb) (expiry cb).

Definition set_counts (c : Counts) (cb : CircuitBreaker W) : CircuitBreaker W :=
  mkCircuitBreaker (name cb) (maxRequests cb) (interval cb) (timeout cb)
    (readyToTrip cb) (isSuccessful cb) (onStateChange cb)
    (state cb) (generation cb) c (expiry cb).

(** [toNewGeneration]: bump the generation, clear the counts, recompute
    the expiry for the state the breaker is in. *)
Definition toNewGeneration (now : Time) (cb : CircuitBreaker W) : CircuitBreaker W :=
  mkCircuitBreaker (name cb) (maxRequests cb) (interval cb) (timeout cb)
    (readyToTrip cb) (isSuccessful cb) (onStateChange cb)
    (state cb)
    (wrap64 (generation cb + 1))
    (Counts_clear (counts cb))
    (match state cb with
     | StateClosed =>
         if interval cb =? 0 then zeroTime else Add now (interval cb)
     | StateOpen => Add now (timeout cb)
     | StateHalfOpen => zeroTime
     end).

Definition setState (st : State) (now : Time) (s : Store) : Store :=
  let (cb, w) := s in
  if State_eqb (state cb) st then s
  else
    let prev := state cb in
    let cb' := toNewGeneration now (set_state st cb) in
    match onStateChange cb' with
    | Some notify => (cb', notify (name cb') prev st w)
    | None => (cb', w)
    end.

(** [currentState]: resolve the time-driven transition that is due, then
    read state and generation. *)
Definition currentState (now : Time) (s : Store) : (State * Z) * Store :=
  let (cb, w) := s in
  let s' :=
    match state cb with
    | StateClosed =>
        if negb (IsZero (expiry cb)) && Before (expiry cb) now
        then (toNewGeneration now cb, w)
        else s
    | StateOpen =>
        if Before (expiry cb) now then setState StateHalfOpen now s else s
    | StateHalfOpen => s
    end in
  ((state (fst s'), generation (fst s')), s').

Definition beforeRequest (now : Time) (s : Store) : (Z * error) * Store :=
  let '((st, gen), s1) := currentState now s in
  let (cb, w) := s1 in
  match st with
  | StateOpen => ((gen, Some ErrOpenState), s1)
  | _ =>
      if State_eqb st StateHalfOpen && (maxRequests cb <=? Requests (counts cb))
      then ((gen, Some ErrTooManyRequests), s1)
      else ((gen, None), (set_counts (Counts_onRequest (counts cb)) cb, w))
  end.

Definition onSuccess (st : State) (now : Time) (s : Store) : Store :=
  let (cb, w) := s in
  match st with
  | StateClosed => (set_counts (Counts_onSuccess (counts cb)) cb, w)
  | StateHalfOpen =>
      let cb' := set_counts (Counts_onSuccess (counts cb)) cb in
      if maxRequests cb' <=? ConsecutiveSuccesses (counts cb')
      then setState StateClosed now (cb', w)
      else (cb', w)
  | StateOpen => s
  end.

Definition onFailure (st : State) (now : Time) (s : Store) : Store :=
  let (cb, w) := s in
  match st with
  | StateClosed =>
      let cb' := set_counts (Counts_onFailure (counts cb)) cb in
      if readyToTrip cb' (counts cb')
      then setState StateOpen now (cb', w)
      else (cb', w)
  | StateHalfOpen => setState StateOpen now s
  | StateOpen => s
  end.

Definition afterRequest (now : Time) (before : Z) (success : bool) (s : Store) : Store :=
  let '((st, gen), s1) := currentState now s in
  if negb (gen =? before) then s1
  else if success then onSuccess st now s1 else onFailure st now s1.

(** [NewCircuitBreaker]: the zero value of the struct, the settings with
    their defaults, then the first generation. *)
Definition NewCircuitBreaker (st : Settings W) (now : Time) : CircuitBreaker W :=
  toNewGeneration now
    (mkCircuitBreaker
       (Name st)
       (if MaxRequests st =? 0 then 1 else MaxRequests st)
       (if Interval st <=? 0 then defaultInterval else Interval st)
       (if Timeout st <=? 0 then defaultTimeout else Timeout st)
       (match ReadyToTrip st with Some f => f | None => defaultReadyToTrip end)
       (match IsSuccessful st with Some f => f | None => defaultIsSuccessful end)
       (OnStateChange st)
       StateClosed 0 zeroCounts zeroTime).

Definition CircuitBreaker_Name (s : Store) : string := name (fst s).

Definition CircuitBreaker_State (now : Time) (s : Store) : State * Store :=
  let '((st, _), s') := currentState now s in (st, s').

Definition CircuitBreaker_Counts (s : Store) : Counts * Store :=
  (counts (fst s), s).

(** ** Execute *)

Section Calls.

Context {R V : Type}.

(** How a call ends: it returns, or it panics with a payload. *)
Inductive Exit (A : Type) : Type :=
| Returns (a : A)
| Panics (v : V).

Arguments Returns {A}.
Arguments Panics {A}.

(** Code that acts on the store and may panic. *)
Definition M (A : Type) : Type := Store -> Exit A * Store.

Definition ret {A : Type} (a : A) : M A := fun s => (Returns a, s).

Definition bind {A B : Type} (m : M A) (k : A -> M B) : M B :=
  fun s =>
    match m s with
    | (Returns a, s') => k a s'
    | (Panics v, s') => (Panics v, s')
    end.

Definition panic {A : Type} (v : V) : M A := fun s => (Panics v, s).

(** A locked section that cannot panic. *)
Definition locked (f : Store -> Store) : M unit := fun s => (Returns tt, f s).

(** Reading a field of the breaker. *)
Definition field {A : Type} (f : CircuitBreaker W -> A) : M A :=
  fun s => (Returns (f (fst s)), s).

(** [defer func() { e := recover(); ... }()] around [body]: the deferred
    function runs on every exit of [body] and receives what [recover()]
    returns, nil ([None]) after a normal return and the payload after a
    panic.  When it returns normally after a panic, the panic is
    recovered and the enclosing function returns its zero results; when
    it panics, that panic propagates. *)
Definition deferRecover {A : Type} (zero : A) (deferred : option V -> M unit)
  (body : M A) : M A :=
  fun s =>
    match body s with
    | (Returns a, s') =>
        match deferred None s' with
        | (Returns _, s'') => (Returns a, s'')
        | (Panics v, s'') => (Panics v, s'')
        end
    | (Panics v, s') =>
        match deferred (Some v) s' with
        | (Returns _, s'') => (Returns zero, s'')
        | (Panics v', s'') => (Panics v', s'')
        end
    end.

(** The request runs outside the lock: whatever happens to the store
    while it runs (its own effects, other callers' operations) is part of
    its effect on the store. *)
Definition Request : Type := M (option R * error).

(** [now1] is the instant read by [beforeRequest], [now2] the one read by
    [afterRequest]. *)
Definition Execute (now1 now2 : Time) (req : Request) : M (option R * error) :=
  fun s =>
    let '((gen, err), s1) := beforeRequest now1 s in
    match err with
    | Some e => (Returns (None, Some e), s1)
    | None =>
        deferRecover (None, None)
          (fun e =>
             match e with
             | Some v =>
                 bind (locked (afterRequest now2 gen false)) (fun _ => panic v)
             | None => ret tt
             end)
          (bind req (fun '(result, err') =>
           bind (field isSuccessful) (fun classify =>
           bind (locked (afterRequest now2 gen (classify err'))) (fun _ =>
           ret (result, err')))))
          s1
    end.

(** A request that returns the error [e] and touches nothing. *)
Definition failingRequest (e : errval) : Request := ret (None, Some e).

(** A series of calls through [Execute], each with a request failing
    with [e]; a call is given by the two instants it reads. *)
Fixpoint failingCalls (e : errval) (calls : list (Time * Time)) (s : Store) : Store :=
  match calls with
  | [] => s
  | (now1, now2) :: rest =>
      failingCalls e rest (snd (Execute now1 now2 (failingRequest e) s))
  end.

End Calls.

(** ** The two-step variant *)

(** The completion handle: given the instant of its invocation and the
    verdict, it runs the after-request phase. *)
Definition Done : Type := Time -> bool -> Store -> Store.

Definition Allow (now : Time) (s : Store) : (option Done * error) * Store :=
  let '((gen, err), s1) := beforeRequest now s in
  match err with
  | Some e => ((None, Some e), s1)
  | None => ((Some (fun now' success => afterRequest now' gen success), None), s1)
  end.

(** ** Runs of locked sections *)

Inductive Op : Type :=
| OpState (now : Time)
| OpCounts
| OpBeforeRequest (now : Time)
| OpAfterRequest (now : Time) (before : Z) (success : bool).

Definition step (s : Store) (op : Op) : Store :=
  match op with
  | OpState now => snd (CircuitBreaker_State now s)
  | OpCounts => snd (CircuitBreaker_Counts s)
  | OpBeforeRequest now => snd (beforeRequest now s)
  | OpAfterRequest now before success => afterRequest now before success s
  end.

Definition run (ops : list Op) (s : Store) : Store := fold_left step ops s.

Definition reachableFrom (st : Settings W) (s : Store) : Prop :=
  exists now w ops, s = run ops (NewCircuitBreaker st now, w).

Definition reachable (s : Store) : Prop := exists st, reachableFrom st s.

End Breaker.

Arguments Store : clear implicits.
Arguments Request : clear implicits.
Arguments M : clear implicits.
Arguments failingCalls {W} R V e calls s.
Arguments Done : clear implicits.
Arguments Returns {V A}.
Arguments Panics {V A}.

(** ** A concrete breaker, for examples *)

(** An observer that appends each notification to a log. *)
Definition Event : Type := (string * State * State)%type.

Definition logObserver : Observer (list Event) :=
  fun n from to log => log ++ [(n, from, to)].

Definition demoSettings : Settings (list Event) :=
  mkSettings "demo" 0 0 0 None (Some logObserver) None.

Definition demoStore : Store (list Event) :=
  (NewCircuitBreaker demoSettings 1000, []).

(** The default scenario of the specification: six failing calls trip the
    breaker, and 61 seconds later it probes. *)
Definition demoError : errval := OtherError "boom".

Definition sixFailures : list (Time * Time) := repeat (2000, 2000) 6.

Definition trippedStore : Store (list Event) :=
  failingCalls unit string demoError sixFailures demoStore.

Definition probeTime : Time := 2000 + 61 * Second.

Definition halfOpenStore : Store (list Event) :=
  snd (currentState probeTime trippedStore).


Definition succeedingRequest : Request (list Event) unit string :=
  fun s => (Returns (Some tt, None), s).

(** The two consecutive counters are never both positive. *)
Definition exclusive (c : Counts) : Prop :=
  (0 < ConsecutiveSuccesses c -> ConsecutiveFailures c = 0) /\
  (0 < ConsecutiveFailures c -> ConsecutiveSuccesses c = 0).

(** No closed-state rollover can ever be due: no interval is configured
    and the expiry of a Closed breaker is the zero instant. *)
Definition neverClears {W : Type} (s : Store W) : Prop :=
  interval (fst s) = 0 /\
  (state (fst s) = StateClosed -> expiry (fst s) = zeroTime).

(** The closed-state rollover of the generation [cb] is in is not due at
    the instant [t]: no expiry is set, or [t] is not after it. *)
Definition quiet {W : Type} (cb : CircuitBreaker W) (t : Time) : Prop :=
  expiry cb = zeroTime \/ t <= expiry cb.


(** ** Notions used by the further properties *)

(** The configuration part of a breaker: what [NewCircuitBreaker] sets
    from the settings. *)
Definition sameConfig {W : Type} (a b : CircuitBreaker W) : Prop :=
  name a = name b /\ maxRequests a = maxRequests b /\
  interval a = interval b /\ timeout a = timeout b /\
  readyToTrip a = readyToTrip b /\ isSuccessful a = isSuccessful b /\
  onStateChange a = onStateChange b.

(** A request that returns [(result, err)] and touches nothing. *)
Definition pureRequest {W : Type} (R V : Type) (result : option R) (err : error)
  : Request W R V :=
  fun s => (Returns (result, err), s).

(** The five counters are values of [uint32]. *)
Definition inRange (c : Counts) : Prop :=
  0 <= Requests c < 2 ^ 32 /\ 0 <= TotalSuccesses c < 2 ^ 32 /\
  0 <= TotalFailures c < 2 ^ 32 /\ 0 <= ConsecutiveSuccesses c < 2 ^ 32 /\
  0 <= ConsecutiveFailures c < 2 ^ 32.

(** What holds of the counters of a breaker that admits at least one
    probe: they are in range, and while HalfOpen the requests counted do
    not exceed [maxRequests] and the successes in a row stay below it. *)
Definition probing {W : Type} (s : Store W) : Prop :=
  1 <= maxRequests (fst s) /\
  inRange (counts (fst s)) /\
  (state (fst s) = StateHalfOpen ->
     Requests (counts (fst s)) <= maxRequests (fst s) /\
     ConsecutiveSuccesses (counts (fst s)) < maxRequests (fst s)).

(** The transitions of the state machine. *)
Definition transition (from to : State) : bool :=
  match from, to with
  | StateClosed, StateOpen => true
  | StateOpen, StateHalfOpen => true
  | StateHalfOpen, StateClosed => true
  | StateHalfOpen, StateOpen => true
  | _, _ => false
  end.

(** Reading a log of notifications as a walk of the state machine that
    starts in [cur]: every entry carries the name [n], leaves the state
    the walk is in and follows a transition; the result is the state the
    walk ends in. *)
Fixpoint walk (n : string) (cur : State) (log : list Event) : option State :=
  match log with
  | [] => Some cur
  | (n', from, to) :: rest =>
      if String.eqb n' n && State_eqb from cur && transition from to
      then walk n to rest
      else None
  end.

(** A series of calls through [Execute]; a call is given by the two
    instants it reads and by whether its request returns no error or the
    error [e].  The requests touch nothing. *)
Fixpoint outcomeCalls {W : Type} (R V : Type) (e : errval)
  (calls : list (Time * Time * bool)) (s : Store W) : Store W :=
  match calls with
  | [] => s
  | (now1, now2, ok) :: rest =>
      outcomeCalls R V e rest
        (snd (Execute now1 now2
                (pureRequest R V None (if ok then None else Some e)) s))
  end.

(** A series of admissions with no outcome reported in between: the
    errors returned, in order, and the store left. *)
Fixpoint admissions {W : Type} (instants : list Time) (s : Store W)
  : list error * Store W :=
  match instants with
  | [] => ([], s)
  | now :: rest =>
      let '((_, err), s1) := beforeRequest now s in
      let (errs, s2) := admissions rest s1 in
      (err :: errs, s2)
  end.

(** What one counted call does to the counts, and a series of them. *)
Definition record (ok : bool) (c : Counts) : Counts :=
  if ok then Counts_onSuccess (Counts_onRequest c)
  else Counts_onFailure (Counts_onRequest c).

Definition tallyFrom (c : Counts) (oks : list bool) : Counts :=
  fold_left (fun c ok => record ok c) oks c.

Definition tally (oks : list bool) : Counts := tallyFrom zeroCounts oks.

(** The length of the run of [b] at the head of a list; on the reversed
    list of outcomes, the current streak. *)
Fixpoint streak (b : bool) (l : list bool) : nat :=
  match l with
  | x :: rest => if Bool.eqb x b then S (streak b rest) else 0%nat
  | [] => 0%nat
  end.

(** The instant a locked section reads, when it reads one. *)
Definition opInstant (op : Op) : option Time :=
  match op with
  | OpState now => Some now
  | OpCounts => None
  | OpBeforeRequest now => Some now
  | OpAfterRequest now _ _ => Some now
  end.

(** A store whose observer is [logObserver] and whose log is a walk from
    Closed to the state the breaker is in. *)
Definition logged (n : string) (s : Store (list Event)) : Prop :=
  name (fst s) = n /\
  onStateChange (fst s) = Some logObserver /\
  walk n StateClosed (snd s) = Some (state (fst s)).

(** A breaker with a clearing interval of 10 seconds and three probes. *)
Definition rollingSettings : Settings (list Event) :=
  mkSettings "rolling" 3 (10 * Second) (30 * Second) None (Some logObserver) None.

Definition rollingStore : Store (list Event) :=
  (NewCircuitBreaker rollingSettings 1000, []).

(** The locked sections of six failing calls at instant 2000. *)
Definition sixFailureOps : list Op :=
  flat_map (fun _ => [OpBeforeRequest 2000; OpAfterRequest 2000 1 false])
           (seq 0 6).

(** Breakers written out field by field: the default breaker as six
    failures at instant 2000 leave it, and a breaker with three probes at
    the start of a HalfOpen generation. *)
Definition demoBreaker : CircuitBreaker (list Event) :=
  NewCircuitBreaker demoSettings 1000.

Definition rollingBreaker : CircuitBreaker (list Event) :=
  NewCircuitBreaker rollingSettings 1000.

Definition openBreaker : CircuitBreaker (list Event) :=
  mkCircuitBreaker "demo" 1 0 (60 * Second) defaultReadyToTrip
    defaultIsSuccessful (Some logObserver)
    StateOpen 2 zeroCounts (2000 + 60 * Second).

Definition probingBreaker : CircuitBreaker (list Event) :=
  mkCircuitBreaker "rolling" 3 (10 * Second) (30 * Second) defaultReadyToTrip
    defaultIsSuccessful (Some logObserver)
    StateHalfOpen 3 zeroCounts zeroTime.

Definition threeCalls : list (Time * Time * bool) :=
  [(2000, 2000, false); (2100, 2100, true); (2200, 2300, false)].

(** ** Properties *)

Section Properties.

Context {W : Type}.

Implicit Types (cb : CircuitBreaker W) (w : W) (s : Store W) (c : Counts).

Lemma State_eqb_refl : forall a : State, State_eqb a a = true.
Proof. intros []; reflexivity. Qed.

Lemma State_eqb_neq : forall a b : State, a <> b -> State_eqb a b = false.
Proof. intros [] [] H; simpl; congruence. Qed.

Lemma wrap64_succ_neq : forall g : Z, wrap64 (g + 1) <> g.
Proof.
  intros g H. unfold wrap64 in H.
  assert (B : 0 <= (g + 1) mod 2 ^ 64 < 2 ^ 64) by (apply Z.mod_pos_bound; lia).
  destruct (Z.eq_dec g (2 ^ 64 - 1)) as [E | E].
  - rewrite E in H. replace (2 ^ 64 - 1 + 1) with (2 ^ 64) in H by lia.
    rewrite Z.mod_same in H by lia. lia.
  - rewrite Z.mod_small in H by lia. lia.
Qed.

Lemma wrap32_small : forall z, 0 <= z < 2 ^ 32 -> wrap32 z = z.
Proof. intros z H. unfold wrap32. apply Z.mod_small. exact H. Qed.

(** What [setState] does when the state really changes. *)
Lemma setState_change : forall st now cb w,
  state cb <> st ->
  setState st now (cb, w) =
    (toNewGeneration now (set_state st cb),
     match onStateChange cb with
     | Some notify => notify (name cb) (state cb) st w
     | None => w
     end).
Proof.
  intros st now cb w H. unfold setState.
  rewrite (State_eqb_neq _ _ H). cbn.
  destruct (onStateChange cb); reflexivity.
Qed.

Lemma setState_same : forall st now cb w,
  state cb = st -> setState st now (cb, w) = (cb, w).
Proof.
  intros st now cb w H. unfold setState. rewrite H, State_eqb_refl. reflexivity.
Qed.

Lemma currentState_fst : forall now s,
  fst (currentState now s) =
    (state (fst (snd (currentState now s))),
     generation (fst (snd (currentState now s)))).
Proof. intros now [cb w]. reflexivity. Qed.

Lemma currentState_halfopen : forall now cb w,
  state cb = StateHalfOpen ->
  currentState now (cb, w) = ((StateHalfOpen, generation cb), (cb, w)).
Proof. intros now cb w H. unfold currentState. rewrite H. cbn. rewrite H. reflexivity. Qed.

Lemma currentState_open_due : forall now cb w,
  state cb = StateOpen -> expiry cb < now ->
  snd (currentState now (cb, w)) = setState StateHalfOpen now (cb, w).
Proof.
  intros now cb w H E. unfold currentState. rewrite H. unfold Before.
  apply Z.ltb_lt in E. rewrite E. reflexivity.
Qed.

(** *** Admission control *)

(** C1. Admission control of [beforeRequest].  With the due lazy
    transition resolved first: in state Open the call is rejected with
    [ErrOpenState] and the store is the resolved store (no counter
    changes); in state HalfOpen with [Requests >= maxRequests] it is
    rejected with [ErrTooManyRequests] and the store is again the resolved
    store; in every other case the call is admitted, the generation
    observed at admission is returned, and the only change is the
    increment [Requests++] (an increment of the [uint32] counter). *)
Theorem beforeRequest_admission : forall (now : Time) (s : Store W),
  let resolved := snd (currentState now s) in
  let cb1 := fst resolved in
  let r := beforeRequest now s in
  (state cb1 = StateOpen ->
     r = ((generation cb1, Some ErrOpenState), resolved)) /\
  (state cb1 = StateHalfOpen ->
   maxRequests cb1 <= Requests (counts cb1) ->
     r = ((generation cb1, Some ErrTooManyRequests), resolved)) /\
  (state cb1 = StateClosed \/
   (state cb1 = StateHalfOpen /\ Requests (counts cb1) < maxRequests cb1) ->
     r = ((generation cb1, None),
          (set_counts (Counts_onRequest (counts cb1)) cb1, snd resolved)) /\
     Requests (counts (fst (snd r))) = wrap32 (Requests (counts cb1) + 1) /\
     (Requests (counts cb1) + 1 < 2 ^ 32 -> 0 <= Requests (counts cb1) ->
      Requests (counts (fst (snd r))) = Requests (counts cb1) + 1) /\
     TotalSuccesses (counts (fst (snd r))) = TotalSuccesses (counts cb1) /\
     TotalFailures (counts (fst (snd r))) = TotalFailures (counts cb1) /\
     ConsecutiveSuccesses (counts (fst (snd r))) = ConsecutiveSuccesses (counts cb1) /\
     ConsecutiveFailures (counts (fst (snd r))) = ConsecutiveFailures (counts cb1)).
Proof.
  intros now s resolved cb1 r.
  pose proof (currentState_fst now s) as F.
  subst r. unfold beforeRequest.
  destruct (currentState now s) as [[st gen] [c1 w1]] eqn:E.
  subst resolved cb1. cbn [fst snd] in *. inversion F; subst st gen; clear F.
  split; [| split].
  - intros H. rewrite H. reflexivity.
  - intros H L. rewrite H. cbn.
    apply Z.leb_le in L. rewrite L. reflexivity.
  - intros [H | [H L]]; rewrite H; cbn.
    + repeat split. intros B1 B0. apply wrap32_small. lia.
    + apply Z.leb_gt in L. rewrite L. cbn.
      repeat split. intros B1 B0. apply wrap32_small. lia.
Qed.

(** *** Stale outcomes *)

(** An outcome reported for a generation that is not the resolved one
    is dropped. *)
Lemma afterRequest_other_generation : forall now G verdict s,
  generation (fst (snd (currentState now s))) <> G ->
  afterRequest now G verdict s = snd (currentState now s).
Proof.
  intros now G verdict s H.
  pose proof (currentState_fst now s) as F.
  unfold afterRequest.
  destruct (currentState now s) as [[st gen] s1].
  cbn [fst snd] in *. inversion F; subst st gen.
  apply Z.eqb_neq in H. rewrite H. reflexivity.
Qed.

(** C2. Stale-outcome protection: when the generation of the breaker,
    after the due lazy transition is resolved, differs from the
    generation [G] captured at admission, [afterRequest G verdict]
    leaves the store exactly as that resolution left it: state, counts,
    generation and expiry (and the configuration and the observer's
    world) are untouched by the reported outcome. *)
Theorem afterRequest_stale_discarded :
  forall (now : Time) (G : Z) (verdict : bool) (s : Store W),
  let resolved := snd (currentState now s) in
  generation (fst resolved) <> G ->
  afterRequest now G verdict s = resolved /\
  state (fst (afterRequest now G verdict s)) = state (fst resolved) /\
  counts (fst (afterRequest now G verdict s)) = counts (fst resolved) /\
  generation (fst (afterRequest now G verdict s)) = generation (fst resolved) /\
  expiry (fst (afterRequest now G verdict s)) = expiry (fst resolved).
Proof.
  intros now G verdict s resolved H. subst resolved.
  rewrite (afterRequest_other_generation now G verdict s H).
  repeat split.
Qed.

(** *** Transitions *)

(** C9. Contract of [setState].  Entering the state that is already
    current changes nothing: the store (generation, counts, expiry,
    observer's world) is returned as it was.  On an actual change the new
    state is set, the generation is incremented, the counts are cleared,
    the expiry is recomputed for the state entered, the configuration is
    kept, and the observer, when one is configured, is applied once to
    (name, previous state, new state); without an observer the world is
    unchanged. *)
Theorem setState_contract : forall (st : State) (now : Time) (cb : CircuitBreaker W) (w : W),
  (state cb = st -> setState st now (cb, w) = (cb, w)) /\
  (state cb <> st ->
     let cb' := fst (setState st now (cb, w)) in
     let w' := snd (setState st now (cb, w)) in
     state cb' = st /\
     generation cb' = wrap64 (generation cb + 1) /\
     counts cb' = zeroCounts /\
     expiry cb' =
       match st with
       | StateClosed => if interval cb =? 0 then zeroTime else Add now (interval cb)
       | StateOpen => Add now (timeout cb)
       | StateHalfOpen => zeroTime
       end /\
     w' =
       match onStateChange cb with
       | Some notify => notify (name cb) (state cb) st w
       | None => w
       end /\
     (name cb', maxRequests cb', interval cb', timeout cb') =
       (name cb, maxRequests cb, interval cb, timeout cb) /\
     readyToTrip cb' = readyToTrip cb /\
     isSuccessful cb' = isSuccessful cb /\
     onStateChange cb' = onStateChange cb).
Proof.
  intros st now cb w. split.
  - apply setState_same.
  - intros H. rewrite (setState_change _ now _ w H). cbn [fst snd].
    unfold toNewGeneration, set_state. cbn.
    repeat split.
Qed.

(** *** Time-driven transitions *)

Lemma beforeRequest_halfopen_state : forall now cb w,
  state cb = StateHalfOpen ->
  state (fst (snd (beforeRequest now (cb, w)))) = StateHalfOpen.
Proof.
  intros now cb w H. unfold beforeRequest.
  rewrite (currentState_halfopen now cb w H). cbn.
  destruct (maxRequests cb <=? Requests (counts cb)); cbn; assumption.
Qed.

Lemma currentState_open_due_eq : forall now cb w,
  state cb = StateOpen -> expiry cb < now ->
  currentState now (cb, w) =
    ((StateHalfOpen, wrap64 (generation cb + 1)),
     setState StateHalfOpen now (cb, w)).
Proof.
  intros now cb w HO HE.
  pose proof (currentState_fst now (cb, w)) as F.
  pose proof (currentState_open_due now cb w HO HE) as S.
  destruct (currentState now (cb, w)) as [p s1]. cbn [fst snd] in *.
  subst s1 p.
  rewrite setState_change by (rewrite HO; discriminate). reflexivity.
Qed.


(** C5. Lazy time-driven transition.  When the breaker is Open and its
    expiry is before [now], every operation that resolves state
    ([currentState] itself, [State()], the admission phase, the outcome
    phase) first performs the transition to HalfOpen and then proceeds
    from there; [State()] and the admission then observe HalfOpen.  When
    the breaker is HalfOpen, no instant makes [currentState], [State()],
    [Counts()] or the admission phase leave HalfOpen, a stale outcome
    changes nothing, and the only locked section after which the state is
    not HalfOpen is an outcome recorded for the current generation. *)
Theorem lazy_transition : forall (now : Time) (cb : CircuitBreaker W) (w : W),
  (state cb = StateOpen -> expiry cb < now ->
     let s' := setState StateHalfOpen now (cb, w) in
     state (fst s') = StateHalfOpen /\
     currentState now (cb, w) =
       ((StateHalfOpen, wrap64 (generation cb + 1)), s') /\
     CircuitBreaker_State now (cb, w) = (StateHalfOpen, s') /\
     beforeRequest now (cb, w) = beforeRequest now s' /\
     state (fst (snd (beforeRequest now (cb, w)))) = StateHalfOpen /\
     (forall G v, afterRequest now G v (cb, w) = afterRequest now G v s')) /\
  (state cb = StateHalfOpen ->
     (forall t, snd (currentState t (cb, w)) = (cb, w)) /\
     (forall t, CircuitBreaker_State t (cb, w) = (StateHalfOpen, (cb, w))) /\
     snd (CircuitBreaker_Counts (cb, w)) = (cb, w) /\
     (forall t, state (fst (snd (beforeRequest t (cb, w)))) = StateHalfOpen) /\
     (forall t G v, G <> generation cb -> afterRequest t G v (cb, w) = (cb, w)) /\
     (forall op, state (fst (step (cb, w) op)) <> StateHalfOpen ->
                 exists t v, op = OpAfterRequest t (generation cb) v)).
Proof.
  intros now cb w. split.
  - intros HO HE s'.
    assert (HS : state (fst s') = StateHalfOpen).
    { subst s'. rewrite setState_change by (rewrite HO; discriminate). reflexivity. }
    assert (HG : generation (fst s') = wrap64 (generation cb + 1)).
    { subst s'. rewrite setState_change by (rewrite HO; discriminate). reflexivity. }
    assert (HC : currentState now (cb, w) =
                 ((StateHalfOpen, wrap64 (generation cb + 1)), s')).
    { pose proof (currentState_fst now (cb, w)) as F.
      pose proof (currentState_open_due now cb w HO HE) as S.
      destruct (currentState now (cb, w)) as [p s1]. cbn [fst snd] in *.
      subst s1. fold s' in F. rewrite HS, HG in F. subst p. reflexivity. }
    assert (HH : currentState now s' = ((StateHalfOpen, generation (fst s')), s')).
    { destruct s' as [c1 w1]. cbn [fst] in *. apply currentState_halfopen. exact HS. }
    assert (HB : beforeRequest now (cb, w) = beforeRequest now s').
    { unfold beforeRequest. rewrite HC, HH, HG. reflexivity. }
    repeat split.
    + exact HS.
    + exact HC.
    + unfold CircuitBreaker_State. rewrite HC. reflexivity.
    + exact HB.
    + rewrite HB. destruct s' as [c1 w1]. apply beforeRequest_halfopen_state. exact HS.
    + intros G v. unfold afterRequest. rewrite HC, HH, HG. reflexivity.
  - intros HH.
    assert (HC : forall t, currentState t (cb, w) = ((StateHalfOpen, generation cb), (cb, w))).
    { intros t. apply currentState_halfopen. exact HH. }
    assert (HA : forall t G v, G <> generation cb -> afterRequest t G v (cb, w) = (cb, w)).
    { intros t G v N. unfold afterRequest. rewrite HC.
      assert (E : (generation cb =? G) = false) by (apply Z.eqb_neq; congruence).
      rewrite E. reflexivity. }
    repeat split.
    + intros t. rewrite HC. reflexivity.
    + intros t. unfold CircuitBreaker_State. rewrite HC. reflexivity.
    + intros t. apply beforeRequest_halfopen_state. exact HH.
    + exact HA.
    + intros op N. destruct op as [t | | t | t G v]; cbn [step] in N.
      * exfalso. apply N. unfold CircuitBreaker_State. rewrite HC. exact HH.
      * exfalso. apply N. exact HH.
      * exfalso. apply N. apply beforeRequest_halfopen_state. exact HH.
      * destruct (Z.eq_dec G (generation cb)) as [E | E].
        -- subst G. exists t, v. reflexivity.
        -- exfalso. apply N. rewrite HA by exact E. exact HH.
Qed.

(** *** Outcomes while HalfOpen *)

(** C4. Half-open outcome protocol.  For an outcome of the current
    generation recorded while HalfOpen: a success increments the success
    counters ([Counts_onSuccess]) and, when the consecutive successes
    have then reached [maxRequests], the breaker becomes Closed in a new
    generation with all counts zero; otherwise it stays HalfOpen with the
    incremented counts.  A failure makes the breaker Open at once, in a
    new generation with counts zero and expiry [now + timeout], whatever
    the counters were. *)
Theorem halfopen_outcome : forall (now : Time) (cb : CircuitBreaker W) (w : W),
  state cb = StateHalfOpen ->
  let c' := Counts_onSuccess (counts cb) in
  let ok := afterRequest now (generation cb) true (cb, w) in
  let ko := afterRequest now (generation cb) false (cb, w) in
  TotalSuccesses c' = wrap32 (TotalSuccesses (counts cb) + 1) /\
  ConsecutiveSuccesses c' = wrap32 (ConsecutiveSuccesses (counts cb) + 1) /\
  (maxRequests cb <= ConsecutiveSuccesses c' ->
     state (fst ok) = StateClosed /\ counts (fst ok) = zeroCounts /\
     generation (fst ok) = wrap64 (generation cb + 1)) /\
  (ConsecutiveSuccesses c' < maxRequests cb ->
     ok = (set_counts c' cb, w)) /\
  state (fst ko) = StateOpen /\ counts (fst ko) = zeroCounts /\
  generation (fst ko) = wrap64 (generation cb + 1) /\
  expiry (fst ko) = Add now (timeout cb).
Proof.
  intros now cb w HH c' ok ko.
  assert (HC : currentState now (cb, w) = ((StateHalfOpen, generation cb), (cb, w)))
    by (apply currentState_halfopen; exact HH).
  assert (Eok : ok = onSuccess StateHalfOpen now (cb, w)).
  { subst ok. unfold afterRequest. rewrite HC, Z.eqb_refl. reflexivity. }
  assert (Eko : ko = onFailure StateHalfOpen now (cb, w)).
  { subst ko. unfold afterRequest. rewrite HC, Z.eqb_refl. reflexivity. }
  split; [reflexivity |]. split; [reflexivity |].
  split; [| split].
  - intros L. rewrite Eok. unfold onSuccess. fold c'.
    apply Z.leb_le in L. cbn [maxRequests set_counts counts]. rewrite L.
    rewrite setState_change by (cbn; rewrite HH; discriminate).
    cbn. repeat split.
  - intros L. rewrite Eok. unfold onSuccess. fold c'.
    apply Z.leb_gt in L. cbn [maxRequests set_counts counts]. rewrite L.
    reflexivity.
  - rewrite Eko. unfold onFailure.
    rewrite setState_change by (rewrite HH; discriminate).
    cbn. repeat split.
Qed.

(** *** The counters' invariant *)

Lemma exclusive_zero : exclusive zeroCounts.
Proof. split; cbn; lia. Qed.

Lemma exclusive_onSuccess : forall c, exclusive (Counts_onSuccess c).
Proof. intros c. split; cbn; lia. Qed.

Lemma exclusive_onFailure : forall c, exclusive (Counts_onFailure c).
Proof. intros c. split; cbn; lia. Qed.

Lemma exclusive_onRequest : forall c, exclusive c -> exclusive (Counts_onRequest c).
Proof. intros c H. exact H. Qed.

Lemma setState_counts : forall st now s,
  setState st now s = s \/ counts (fst (setState st now s)) = zeroCounts.
Proof.
  intros st now [cb w]. unfold setState.
  destruct (State_eqb (state cb) st); [left; reflexivity | right].
  cbn. destruct (onStateChange cb); reflexivity.
Qed.

Lemma currentState_counts : forall now s,
  snd (currentState now s) = s \/
  counts (fst (snd (currentState now s))) = zeroCounts.
Proof.
  intros now [cb w]. unfold currentState. cbn [snd].
  destruct (state cb).
  - destruct (negb (IsZero (expiry cb)) && Before (expiry cb) now);
      [right; reflexivity | left; reflexivity].
  - left; reflexivity.
  - destruct (Before (expiry cb) now); [apply setState_counts | left; reflexivity].
Qed.

Lemma exclusive_setState : forall st now s,
  exclusive (counts (fst s)) -> exclusive (counts (fst (setState st now s))).
Proof.
  intros st now s H. destruct (setState_counts st now s) as [E | E]; rewrite E.
  - exact H.
  - apply exclusive_zero.
Qed.

Lemma exclusive_currentState : forall now s,
  exclusive (counts (fst s)) ->
  exclusive (counts (fst (snd (currentState now s)))).
Proof.
  intros now s H. destruct (currentState_counts now s) as [E | E]; rewrite E.
  - exact H.
  - apply exclusive_zero.
Qed.

Lemma exclusive_beforeRequest : forall now s,
  exclusive (counts (fst s)) ->
  exclusive (counts (fst (snd (beforeRequest now s)))).
Proof.
  intros now s H. apply (exclusive_currentState now) in H.
  unfold beforeRequest.
  destruct (currentState now s) as [[st gen] [c1 w1]]. cbn [fst snd] in *.
  destruct st; cbn [State_eqb andb]; try exact H.
  destruct (maxRequests c1 <=? Requests (counts c1)); exact H.
Qed.

Lemma exclusive_onSuccess_store : forall st now s,
  exclusive (counts (fst s)) ->
  exclusive (counts (fst (onSuccess st now s))).
Proof.
  intros st now [cb w] H. unfold onSuccess. destruct st.
  - apply exclusive_onSuccess.
  - match goal with |- context [if ?b then _ else _] => destruct b end.
    + apply exclusive_setState. apply exclusive_onSuccess.
    + apply exclusive_onSuccess.
  - exact H.
Qed.

Lemma exclusive_onFailure_store : forall st now s,
  exclusive (counts (fst s)) ->
  exclusive (counts (fst (onFailure st now s))).
Proof.
  intros st now [cb w] H. unfold onFailure. destruct st.
  - match goal with |- context [if ?b then _ else _] => destruct b end.
    + apply exclusive_setState. apply exclusive_onFailure.
    + apply exclusive_onFailure.
  - apply exclusive_setState. exact H.
  - exact H.
Qed.

Lemma exclusive_afterRequest : forall now before success s,
  exclusive (counts (fst s)) ->
  exclusive (counts (fst (afterRequest now before success s))).
Proof.
  intros now before success s H. apply (exclusive_currentState now) in H.
  unfold afterRequest.
  destruct (currentState now s) as [[st gen] s1]. cbn [fst snd] in *.
  destruct (negb (gen =? before)); [exact H |].
  destruct success.
  - apply exclusive_onSuccess_store. exact H.
  - apply exclusive_onFailure_store. exact H.
Qed.

Lemma exclusive_step : forall op s,
  exclusive (counts (fst s)) -> exclusive (counts (fst (step s op))).
Proof.
  intros op s H. destruct op as [t | | t | t G v]; cbn [step].
  - unfold CircuitBreaker_State.
    pose proof (exclusive_currentState t s H) as H'.
    destruct (currentState t s) as [[st gen] s1]. exact H'.
  - exact H.
  - apply exclusive_beforeRequest. exact H.
  - apply exclusive_afterRequest. exact H.
Qed.

Lemma exclusive_run : forall ops s,
  exclusive (counts (fst s)) -> exclusive (counts (fst (run ops s))).
Proof.
  induction ops as [| op ops IH]; intros s H.
  - exact H.
  - cbn. apply IH. apply exclusive_step. exact H.
Qed.

(** C6. Mutual exclusion of the consecutive counters.  In every store
    reachable from a freshly constructed breaker by any sequence of
    locked sections ([State()], [Counts()], admissions, outcomes of any
    generation and verdict, with the clears and transitions they
    perform), a positive [ConsecutiveSuccesses] implies
    [ConsecutiveFailures = 0] and a positive [ConsecutiveFailures]
    implies [ConsecutiveSuccesses = 0]; the update that increments one of
    the two sets the other to zero. *)
Theorem consecutive_counters_exclusive : forall s : Store W,
  reachable s ->
  (0 < ConsecutiveSuccesses (counts (fst s)) ->
   ConsecutiveFailures (counts (fst s)) = 0) /\
  (0 < ConsecutiveFailures (counts (fst s)) ->
   ConsecutiveSuccesses (counts (fst s)) = 0) /\
  (forall c, ConsecutiveFailures (Counts_onSuccess c) = 0 /\
             ConsecutiveSuccesses (Counts_onFailure c) = 0).
Proof.
  intros s (st & now & w & ops & E). subst s.
  destruct (exclusive_run ops (NewCircuitBreaker st now, w) exclusive_zero)
    as [H1 H2].
  split; [exact H1 |]. split; [exact H2 |].
  intros c. split; reflexivity.
Qed.

(** *** Construction *)

Lemma neverClears_set_counts : forall c cb w,
  neverClears (cb, w) -> neverClears (set_counts c cb, w).
Proof. intros c cb w H. exact H. Qed.

Lemma neverClears_enter : forall st now cb w w',
  neverClears (cb, w) -> neverClears (toNewGeneration now (set_state st cb), w').
Proof.
  intros st now cb w w' [HI _]. split; cbn in *.
  - exact HI.
  - intros HS. rewrite HS, HI. reflexivity.
Qed.

Lemma set_state_same : forall cb, set_state (state cb) cb = cb.
Proof. intros []. reflexivity. Qed.

Lemma neverClears_setState : forall st now s,
  neverClears s -> neverClears (setState st now s).
Proof.
  intros st now [cb w] H. unfold setState.
  destruct (State_eqb (state cb) st); [exact H |].
  cbv zeta. destruct (onStateChange _); apply (neverClears_enter st now cb w); exact H.
Qed.

Lemma neverClears_currentState : forall now s,
  neverClears s -> neverClears (snd (currentState now s)).
Proof.
  intros now [cb w] H. unfold currentState. cbn [snd].
  destruct (state cb) eqn:E.
  - destruct (negb (IsZero (expiry cb)) && Before (expiry cb) now); [| exact H].
    rewrite <- (set_state_same cb). apply (neverClears_enter _ now cb w). exact H.
  - exact H.
  - destruct (Before (expiry cb) now); [| exact H].
    apply neverClears_setState. exact H.
Qed.

Lemma neverClears_step : forall op s, neverClears s -> neverClears (step s op).
Proof.
  intros op s H. destruct op as [t | | t | t G v]; cbn [step].
  - unfold CircuitBreaker_State.
    pose proof (neverClears_currentState t s H) as H'.
    destruct (currentState t s) as [[st gen] s1]. exact H'.
  - exact H.
  - unfold beforeRequest.
    pose proof (neverClears_currentState t s H) as H'.
    destruct (currentState t s) as [[st gen] [c1 w1]]. cbn [snd] in *.
    destruct st; cbn [State_eqb andb snd]; try exact H'.
    destruct (maxRequests c1 <=? Requests (counts c1)); exact H'.
  - unfold afterRequest.
    pose proof (neverClears_currentState t s H) as H'.
    destruct (currentState t s) as [[st gen] [c1 w1]]. cbn [snd] in *.
    destruct (negb (gen =? G)); [exact H' |].
    destruct v; [unfold onSuccess | unfold onFailure]; destruct st;
      repeat match goal with
             | |- context [if ?b then _ else _] => destruct b
             end;
      try exact H';
      try (apply neverClears_setState);
      try (apply neverClears_set_counts); exact H'.
Qed.

Lemma neverClears_run : forall ops s, neverClears s -> neverClears (run ops s).
Proof.
  induction ops as [| op ops IH]; intros s H.
  - exact H.
  - cbn. apply IH. apply neverClears_step. exact H.
Qed.

Lemma neverClears_no_rollover : forall now s,
  neverClears s -> state (fst s) = StateClosed ->
  currentState now s = ((StateClosed, generation (fst s)), s).
Proof.
  intros now [cb w] [_ HE] HS. cbn [fst] in *.
  unfold currentState. rewrite HS, (HE HS). cbn. rewrite HS. reflexivity.
Qed.

(** Without an interval, a locked section that leaves a Closed breaker
    Closed starts no new generation: the counts are the ones before, with
    at most one counter update applied. *)
Lemma neverClears_closed_step : forall op s,
  neverClears s -> state (fst s) = StateClosed ->
  state (fst (step s op)) = StateClosed ->
  generation (fst (step s op)) = generation (fst s) /\
  (counts (fst (step s op)) = counts (fst s) \/
   counts (fst (step s op)) = Counts_onRequest (counts (fst s)) \/
   counts (fst (step s op)) = Counts_onSuccess (counts (fst s)) \/
   counts (fst (step s op)) = Counts_onFailure (counts (fst s))).
Proof.
  intros op s HN HS.
  pose proof (neverClears_no_rollover) as NR.
  destruct op as [t | | t | t G v]; cbn [step]; intros HS'.
  - unfold CircuitBreaker_State. rewrite (NR t s HN HS). cbn. auto.
  - cbn. auto.
  - unfold beforeRequest. rewrite (NR t s HN HS).
    destruct s as [cb w]. cbn. auto.
  - revert HS'. unfold afterRequest. rewrite (NR t s HN HS).
    destruct s as [cb w]. cbn [fst snd] in *.
    destruct (negb (generation cb =? G)); [cbn; auto |].
    destruct v.
    + cbn. auto.
    + unfold onFailure.
      match goal with |- context [if ?b then _ else _] => destruct b end.
      * rewrite setState_change by (cbn; rewrite HS; discriminate).
        cbn. discriminate.
      * cbn. auto.
Qed.

(** C8. Construction and defaults.  Right after [NewCircuitBreaker] the
    state is Closed and all five counters are zero (the breaker is in
    generation 1).  [MaxRequests = 0] becomes 1 and any other value is
    kept; [Timeout <= 0] becomes 60 seconds and a positive one is kept;
    with [Interval <= 0] the breaker has no interval, its expiry is the
    zero instant, and in every store reachable from it the counts are
    never cleared while Closed: no instant makes the lazy rule start a
    new generation, and a locked section that leaves the breaker Closed
    keeps the generation and applies at most one counter update; a
    positive interval is kept.  A nil [ReadyToTrip] trips exactly when
    there are more than 5 consecutive failures, a nil [IsSuccessful]
    counts exactly the nil error as a success, and supplied callbacks are
    kept. *)
Theorem NewCircuitBreaker_defaults : forall (st : Settings W) (now : Time),
  let cb := NewCircuitBreaker st now in
  state cb = StateClosed /\
  counts cb = mkCounts 0 0 0 0 0 /\
  generation cb = 1 /\
  name cb = Name st /\
  onStateChange cb = OnStateChange st /\
  (MaxRequests st = 0 -> maxRequests cb = 1) /\
  (MaxRequests st <> 0 -> maxRequests cb = MaxRequests st) /\
  (Timeout st <= 0 -> timeout cb = 60 * Second) /\
  (0 < Timeout st -> timeout cb = Timeout st) /\
  (Interval st <= 0 ->
     interval cb = 0 /\ expiry cb = zeroTime /\
     forall s, reachableFrom st s -> state (fst s) = StateClosed ->
       (forall t, currentState t s = ((StateClosed, generation (fst s)), s)) /\
       (forall op, state (fst (step s op)) = StateClosed ->
          generation (fst (step s op)) = generation (fst s) /\
          (counts (fst (step s op)) = counts (fst s) \/
           counts (fst (step s op)) = Counts_onRequest (counts (fst s)) \/
           counts (fst (step s op)) = Counts_onSuccess (counts (fst s)) \/
           counts (fst (step s op)) = Counts_onFailure (counts (fst s))))) /\
  (0 < Interval st -> interval cb = Interval st /\ expiry cb = Add now (Interval st)) /\
  (ReadyToTrip st = None ->
     forall c, readyToTrip cb c = true <-> 5 < ConsecutiveFailures c) /\
  (forall f, ReadyToTrip st = Some f -> readyToTrip cb = f) /\
  (IsSuccessful st = None ->
     forall e : error, isSuccessful cb e = true <-> e = None) /\
  (forall f, IsSuccessful st = Some f -> isSuccessful cb = f).
Proof.
  intros st now cb. subst cb. unfold NewCircuitBreaker, toNewGeneration. cbn.
  repeat match goal with |- _ /\ _ => split end; try reflexivity.
  - intros H. rewrite H. reflexivity.
  - intros H. apply Z.eqb_neq in H. rewrite H. reflexivity.
  - intros H. apply Z.leb_le in H. rewrite H. reflexivity.
  - intros H. apply Z.leb_gt in H. rewrite H. reflexivity.
  - intros H. split; [| split].
    + apply Z.leb_le in H. rewrite H. reflexivity.
    + apply Z.leb_le in H. rewrite H. reflexivity.
    + intros s (now' & w & ops & E) HS.
      assert (HN : neverClears s).
      { subst s. apply neverClears_run. unfold NewCircuitBreaker, toNewGeneration.
        apply Z.leb_le in H. split; cbn; rewrite H; reflexivity. }
      split.
      * intros t. apply neverClears_no_rollover; assumption.
      * intros op. apply neverClears_closed_step; assumption.
  - intros H. apply Z.leb_gt in H. rewrite H. split; [reflexivity |].
    destruct (Interval st =? 0) eqn:E; [| reflexivity].
    apply Z.eqb_eq in E. apply Z.leb_gt in H. lia.
  - intros H c. rewrite H. unfold defaultReadyToTrip. apply Z.ltb_lt.
  - intros f H. rewrite H. reflexivity.
  - intros H e. rewrite H. destruct e; cbn; split; congruence.
  - intros f H. rewrite H. reflexivity.
Qed.

(** *** Panics in the request *)



(** *** The completion handle of the two-step variant *)

Lemma wrap64_succ_succ_neq : forall g : Z, wrap64 (wrap64 (g + 1) + 1) <> g.
Proof.
  intros g. unfold wrap64. change (2 ^ 64) with 18446744073709551616.
  Z.to_euclidean_division_equations. lia.
Qed.

Lemma setState_generation : forall st now s,
  setState st now s = s \/
  generation (fst (setState st now s)) = wrap64 (generation (fst s) + 1).
Proof.
  intros st now [cb w]. unfold setState.
  destruct (State_eqb (state cb) st); [left; reflexivity | right].
  cbn. destruct (onStateChange cb); reflexivity.
Qed.

Lemma currentState_generation : forall now s,
  snd (currentState now s) = s \/
  generation (fst (snd (currentState now s))) = wrap64 (generation (fst s) + 1).
Proof.
  intros now [cb w]. unfold currentState. cbn [snd].
  destruct (state cb).
  - destruct (negb (IsZero (expiry cb)) && Before (expiry cb) now);
      [right; reflexivity | left; reflexivity].
  - left; reflexivity.
  - destruct (Before (expiry cb) now); [apply setState_generation | left; reflexivity].
Qed.

(** An outcome reported for a generation the breaker has left stays
    without effect on the generation. *)
Lemma afterRequest_after_bump : forall now G v s,
  generation (fst s) = wrap64 (G + 1) ->
  generation (fst (afterRequest now G v s)) <> G.
Proof.
  intros now G v s H.
  assert (N : generation (fst (snd (currentState now s))) <> G).
  { destruct (currentState_generation now s) as [E | E]; rewrite E, H.
    - apply wrap64_succ_neq.
    - apply wrap64_succ_succ_neq. }
  rewrite afterRequest_other_generation by exact N. exact N.
Qed.

(** A success reported for the generation of a breaker that is not
    Open: either it is counted and nothing else changes, or the
    generation moves on. *)
Lemma afterRequest_success_current : forall now s,
  state (fst s) <> StateOpen ->
  afterRequest now (generation (fst s)) true s =
    (set_counts (Counts_onSuccess (counts (fst s))) (fst s), snd s) \/
  generation (fst (afterRequest now (generation (fst s)) true s)) =
    wrap64 (generation (fst s) + 1).
Proof.
  intros now s HS.
  destruct (currentState_generation now s) as [E | E].
  - pose proof (currentState_fst now s) as F.
    unfold afterRequest.
    destruct (currentState now s) as [[st gen] s1]. cbn [fst snd] in *.
    subst s1. inversion F; subst st gen. rewrite Z.eqb_refl. cbn [negb].
    destruct s as [cb w]. cbn [fst snd] in *. unfold onSuccess.
    destruct (state cb) eqn:ES; [left; reflexivity | | congruence].
    match goal with |- context [if ?b then _ else _] => destruct b end;
      [right | left; reflexivity].
    rewrite setState_change by (cbn; rewrite ES; discriminate). reflexivity.
  - right. rewrite afterRequest_other_generation; [exact E |].
    rewrite E. apply wrap64_succ_neq.
Qed.

Lemma beforeRequest_admitted : forall now s gen s1,
  beforeRequest now s = ((gen, None), s1) ->
  gen = generation (fst s1) /\ state (fst s1) <> StateOpen /\
  counts (fst s1) = Counts_onRequest (counts (fst (snd (currentState now s)))).
Proof.
  intros now s gen s1 H.
  pose proof (currentState_fst now s) as F.
  unfold beforeRequest in H.
  destruct (currentState now s) as [[st g] [c1 w1]]. cbn [fst snd] in *.
  inversion F; subst st g; clear F.
  destruct (state c1) eqn:ES; cbn [State_eqb andb] in H.
  - inversion H; subst. cbn. rewrite ES. repeat split. discriminate.
  - destruct (maxRequests c1 <=? Requests (counts c1)); inversion H; subst.
    cbn. rewrite ES. repeat split. discriminate.
  - discriminate.
Qed.

(** C10. The completion handle returned by [Allow] is not idempotent.
    Each invocation runs the after-request phase with the generation
    captured at admission.  For one admitted request, when the handle is
    invoked twice with success and the generation has not changed, both
    successes are counted: the counts are the admitted counts with
    [onSuccess] applied twice, so [TotalSuccesses] and
    [ConsecutiveSuccesses] have each been incremented twice (by 2 when
    the [uint32] counters do not wrap) while [Requests] was incremented
    once.  Such a run exists from a freshly constructed default breaker,
    and after it the total successes plus total failures (2) exceed the
    requests (1). *)
Theorem done_not_idempotent :
  forall (now t1 t2 : Time) (s s1 : Store W) (done : Done W),
  Allow now s = ((Some done, None), s1) ->
  generation (fst (done t2 true (done t1 true s1))) = generation (fst s1) ->
  let c0 := counts (fst (snd (currentState now s))) in
  let c3 := counts (fst (done t2 true (done t1 true s1))) in
  counts (fst s1) = Counts_onRequest c0 /\
  c3 = Counts_onSuccess (Counts_onSuccess (counts (fst s1))) /\
  Requests c3 = wrap32 (Requests c0 + 1) /\
  TotalSuccesses c3 = wrap32 (wrap32 (TotalSuccesses c0 + 1) + 1) /\
  ConsecutiveSuccesses c3 = wrap32 (wrap32 (ConsecutiveSuccesses c0 + 1) + 1) /\
  (0 <= TotalSuccesses c0 < 2 ^ 32 - 2 -> TotalSuccesses c3 = TotalSuccesses c0 + 2) /\
  (0 <= ConsecutiveSuccesses c0 < 2 ^ 32 - 2 ->
   ConsecutiveSuccesses c3 = ConsecutiveSuccesses c0 + 2) /\
  (0 <= Requests c0 < 2 ^ 32 - 1 -> Requests c3 = Requests c0 + 1) /\
  exists (s0 s1' : Store W) (done' : Done W),
    reachable s0 /\
    Allow now s0 = ((Some done', None), s1') /\
    generation (fst (done' now true (done' now true s1'))) = generation (fst s1') /\
    Requests (counts (fst (done' now true (done' now true s1')))) = 1 /\
    TotalSuccesses (counts (fst (done' now true (done' now true s1')))) = 2 /\
    TotalFailures (counts (fst (done' now true (done' now true s1')))) = 0.
Proof.
  intros now t1 t2 s s1 done HA HG c0 c3.
  unfold Allow in HA.
  destruct (beforeRequest now s) as [[gen err] s1'] eqn:HB.
  destruct err as [e |]; [discriminate |].
  inversion HA; subst s1' done; clear HA.
  destruct (beforeRequest_admitted now s gen s1 HB) as (Hg & HS & HC). subst gen.
  assert (E3 : c3 = Counts_onSuccess (Counts_onSuccess (counts (fst s1)))).
  { subst c3.
    destruct (afterRequest_success_current t1 s1 HS) as [E1 | E1].
    - rewrite E1 in *.
      set (s2 := (set_counts (Counts_onSuccess (counts (fst s1))) (fst s1), snd s1)) in *.
      assert (HS2 : state (fst s2) <> StateOpen) by exact HS.
      change (generation (fst s1)) with (generation (fst s2)) in HG |- *.
      destruct (afterRequest_success_current t2 s2 HS2) as [E2 | E2].
      + rewrite E2. reflexivity.
      + rewrite E2 in HG. exfalso. exact (wrap64_succ_neq _ HG).
    - exfalso. exact (afterRequest_after_bump t2 _ true _ E1 HG). }
  split; [exact HC |]. split; [exact E3 |].
  rewrite E3, HC. subst c0. cbn.
  repeat match goal with |- _ /\ _ => split end; try reflexivity.
  - intros B. unfold wrap32. change (2 ^ 32) with 4294967296.
    Z.to_euclidean_division_equations. lia.
  - intros B. unfold wrap32. change (2 ^ 32) with 4294967296.
    Z.to_euclidean_division_equations. lia.
  - intros B. unfold wrap32. change (2 ^ 32) with 4294967296.
    apply Z.mod_small. lia.
  - set (st0 := mkSettings "cb"%string 0 0 0 None None None : Settings W).
    set (s0 := (NewCircuitBreaker st0 now, snd s) : Store W).
    exists s0, (snd (beforeRequest now s0)),
      (fun now' success => afterRequest now' (fst (fst (beforeRequest now s0))) success).
    split.
    { exists st0, now, (snd s), []. reflexivity. }
    repeat split.
Qed.

(** *** Failures while Closed *)

Lemma currentState_closed_quiet : forall now cb w,
  state cb = StateClosed -> quiet cb now ->
  currentState now (cb, w) = ((StateClosed, generation cb), (cb, w)).
Proof.
  intros now cb w HS HQ. unfold currentState. rewrite HS.
  assert (E : negb (IsZero (expiry cb)) && Before (expiry cb) now = false).
  { destruct HQ as [Z0 | LE].
    - rewrite Z0. reflexivity.
    - apply andb_false_iff. right. apply Z.ltb_ge. exact LE. }
  rewrite E. cbn. rewrite HS. reflexivity.
Qed.

Lemma currentState_open_early : forall now cb w,
  state cb = StateOpen -> now <= expiry cb ->
  currentState now (cb, w) = ((StateOpen, generation cb), (cb, w)).
Proof.
  intros now cb w HS LE. unfold currentState. rewrite HS.
  assert (E : Before (expiry cb) now = false) by (apply Z.ltb_ge; exact LE).
  rewrite E. cbn. rewrite HS. reflexivity.
Qed.

Section FailingCalls.

Context {R V : Type}.






Variable K : Z.
Variable e : errval.
Variable cb0 : CircuitBreaker W.

Hypothesis K_range : 0 <= K /\ K + 1 < 2 ^ 32.
Hypothesis trip_K : forall c, readyToTrip cb0 c = (K <? ConsecutiveFailures c).
Hypothesis e_fails : isSuccessful cb0 (Some e) = false.
Hypothesis probes : 1 <= maxRequests cb0.




End FailingCalls.


End Properties.

(** ** The scenario of the specification, run on the model *)

Example demo_fresh :
  state (fst demoStore) = StateClosed /\
  counts (fst demoStore) = zeroCounts /\
  generation (fst demoStore) = 1.
Proof. vm_compute. repeat split. Qed.

Example demo_five_failures_stay_closed :
  let s := failingCalls unit string demoError (repeat (2000, 2000) 5) demoStore in
  state (fst s) = StateClosed /\ counts (fst s) = mkCounts 5 0 5 0 5.
Proof. vm_compute. repeat split. Qed.

Example demo_sixth_failure_trips :
  state (fst trippedStore) = StateOpen /\
  counts (fst trippedStore) = zeroCounts /\
  generation (fst trippedStore) = 2 /\
  expiry (fst trippedStore) = 2000 + 60 * Second /\
  snd trippedStore = [("demo"%string, StateClosed, StateOpen)].
Proof. vm_compute. repeat split. Qed.

Example demo_seventh_call_rejected :
  Execute 3000 3000 succeedingRequest trippedStore =
    (Returns (None, Some ErrOpenState), trippedStore).
Proof. (vm_compute; reflexivity). Qed.

Example demo_probe_after_timeout :
  fst (CircuitBreaker_State probeTime trippedStore) = StateHalfOpen /\
  state (fst halfOpenStore) = StateHalfOpen /\
  counts (fst halfOpenStore) = zeroCounts /\
  expiry (fst halfOpenStore) = zeroTime.
Proof. vm_compute. repeat split. Qed.

Example demo_probe_success_closes :
  let r := Execute probeTime probeTime succeedingRequest trippedStore in
  fst r = Returns (Some tt, None) /\
  state (fst (snd r)) = StateClosed /\
  counts (fst (snd r)) = zeroCounts /\
  snd (snd r) = [("demo"%string, StateClosed, StateOpen);
                 ("demo"%string, StateOpen, StateHalfOpen);
                 ("demo"%string, StateHalfOpen, StateClosed)].
Proof. vm_compute. repeat split. Qed.

Example demo_second_probe_rejected :
  fst (beforeRequest probeTime (snd (beforeRequest probeTime trippedStore))) =
    (3, Some ErrTooManyRequests).
Proof. vm_compute. reflexivity. Qed.

Example demo_stale_outcome_ignored :
  let admitted := beforeRequest 2000 demoStore in
  let s := failingCalls unit string demoError sixFailures (snd admitted) in
  fst admitted = (1, None) /\
  generation (fst s) = 2 /\
  counts (fst (afterRequest 2500 1 true s)) = counts (fst s) /\
  state (fst (afterRequest 2500 1 true s)) = StateOpen.
Proof. vm_compute. repeat split. Qed.

Example demo_failed_probe_reopens :
  let s := failingCalls unit string demoError [(probeTime, probeTime)] trippedStore in
  state (fst s) = StateOpen /\ generation (fst s) = 4 /\
  expiry (fst s) = probeTime + 60 * Second.
Proof. vm_compute. repeat split. Qed.

(** ** The theorems at concrete inputs *)

Lemma beforeRequest_admission_witness :
  beforeRequest 3000 trippedStore = ((2, Some ErrOpenState), trippedStore) /\
  beforeRequest probeTime (snd (beforeRequest probeTime trippedStore)) =
    ((3, Some ErrTooManyRequests), snd (beforeRequest probeTime trippedStore)) /\
  fst (beforeRequest 2000 demoStore) = (1, None) /\
  Requests (counts (fst (snd (beforeRequest 2000 demoStore)))) = 1.
Proof.
  pose proof (beforeRequest_admission 3000 trippedStore) as H1.
  pose proof (beforeRequest_admission probeTime
                (snd (beforeRequest probeTime trippedStore))) as H2.
  pose proof (beforeRequest_admission 2000 demoStore) as H3.
  vm_compute in H1, H2, H3 |- *.
  destruct H1 as (A & _). destruct H2 as (_ & B & _). destruct H3 as (_ & _ & C).
  split; [apply A; reflexivity |].
  split; [apply B; [reflexivity | discriminate] |].
  destruct C as (E & _); [left; reflexivity |].
  split; [| reflexivity].
  exact (f_equal fst E).
Defined.

Lemma afterRequest_stale_discarded_witness :
  generation (fst (snd (currentState 3000 trippedStore))) <> 1 /\
  afterRequest 3000 1 false trippedStore = snd (currentState 3000 trippedStore).
Proof.
  assert (N : generation (fst (snd (currentState 3000 trippedStore))) <> 1)
    by (vm_compute; discriminate).
  split; [exact N |].
  exact (proj1 (afterRequest_stale_discarded 3000 1 false trippedStore N)).
Defined.


Lemma halfopen_outcome_witness :
  state (fst halfOpenStore) = StateHalfOpen /\
  state (fst (afterRequest probeTime 3 true halfOpenStore)) = StateClosed /\
  state (fst (afterRequest probeTime 3 false halfOpenStore)) = StateOpen.
Proof.
  assert (H : state (fst halfOpenStore) = StateHalfOpen)
    by (vm_compute; reflexivity).
  split; [exact H |].
  pose proof (halfopen_outcome probeTime (fst halfOpenStore) (snd halfOpenStore) H)
    as T.
  vm_compute in T |- *.
  destruct T as (_ & _ & HC & _ & HO & _).
  split; [apply HC; discriminate | exact HO].
Defined.

Lemma lazy_transition_witness :
  state (fst trippedStore) = StateOpen /\
  expiry (fst trippedStore) < probeTime /\
  fst (CircuitBreaker_State probeTime trippedStore) = StateHalfOpen /\
  snd (currentState (probeTime + 1000 * Second) halfOpenStore) = halfOpenStore.
Proof.
  pose proof (lazy_transition probeTime (fst trippedStore) (snd trippedStore)) as T.
  pose proof (lazy_transition probeTime (fst halfOpenStore) (snd halfOpenStore)) as U.
  destruct T as (T & _). destruct U as (_ & U).
  assert (HO : state (fst trippedStore) = StateOpen) by (vm_compute; reflexivity).
  assert (HE : expiry (fst trippedStore) < probeTime) by (vm_compute; reflexivity).
  assert (HH : state (fst halfOpenStore) = StateHalfOpen) by (vm_compute; reflexivity).
  specialize (T HO HE). destruct T as (_ & _ & T & _).
  specialize (U HH). destruct U as (U & _).
  specialize (U (probeTime + 1000 * Second)).
  split; [exact HO |]. split; [exact HE |].
  vm_compute in T, U |- *.
  split; [exact (f_equal fst T) | exact U].
Defined.

Lemma consecutive_counters_exclusive_witness :
  reachable trippedStore /\
  (0 < ConsecutiveSuccesses (counts (fst trippedStore)) ->
   ConsecutiveFailures (counts (fst trippedStore)) = 0) /\
  (0 < ConsecutiveFailures (counts (fst trippedStore)) ->
   ConsecutiveSuccesses (counts (fst trippedStore)) = 0).
Proof.
  assert (HR : reachable trippedStore).
  { exists demoSettings, 1000, [],
      (flat_map (fun _ => [OpBeforeRequest 2000; OpAfterRequest 2000 1 false])
                (seq 0 6)).
    vm_compute. reflexivity. }
  split; [exact HR |].
  destruct (consecutive_counters_exclusive trippedStore HR) as (H1 & H2 & _).
  split; [exact H1 | exact H2].
Defined.


Lemma NewCircuitBreaker_defaults_witness :
  state (NewCircuitBreaker demoSettings 1000) = StateClosed /\
  counts (NewCircuitBreaker demoSettings 1000) = mkCounts 0 0 0 0 0 /\
  maxRequests (NewCircuitBreaker demoSettings 1000) = 1 /\
  timeout (NewCircuitBreaker demoSettings 1000) = 60 * Second.
Proof.
  pose proof (NewCircuitBreaker_defaults demoSettings 1000) as T.
  cbv zeta in T.
  destruct T as (HS & HC & _ & _ & _ & HM & _ & HT & _).
  split; [exact HS |]. split; [exact HC |].
  split; [apply HM; vm_compute; reflexivity | apply HT; vm_compute; discriminate].
Defined.

Lemma setState_contract_witness :
  setState StateClosed 5000 demoStore = demoStore /\
  generation (fst (setState StateOpen 5000 demoStore)) = 2 /\
  snd (setState StateOpen 5000 demoStore) = [("demo"%string, StateClosed, StateOpen)].
Proof.
  pose proof (setState_contract StateClosed 5000 (fst demoStore) (snd demoStore)) as T.
  pose proof (setState_contract StateOpen 5000 (fst demoStore) (snd demoStore)) as U.
  vm_compute in T, U |- *.
  destruct T as (T & _). destruct U as (_ & U).
  split; [apply T; reflexivity |].
  destruct U as (_ & HG & _ & _ & HW & _); [discriminate |].
  split; [exact HG | exact HW].
Defined.

Lemma done_not_idempotent_witness :
  let done : Done (list Event) := fun now' success => afterRequest now' 1 success in
  let s1 := snd (beforeRequest 2000 demoStore) in
  Allow 2000 demoStore = ((Some done, None), s1) /\
  generation (fst (done 2200 true (done 2100 true s1))) = generation (fst s1) /\
  counts (fst (done 2200 true (done 2100 true s1))) = mkCounts 1 2 0 2 0.
Proof.
  intros done s1.
  assert (HB : beforeRequest 2000 demoStore = ((1, None), s1))
    by (vm_compute; reflexivity).
  assert (HA : Allow 2000 demoStore = ((Some done, None), s1))
    by (unfold Allow; rewrite HB; reflexivity).
  assert (HG : generation (fst (done 2200 true (done 2100 true s1))) =
               generation (fst s1)) by (vm_compute; reflexivity).
  split; [exact HA |]. split; [exact HG |].
  pose proof (done_not_idempotent 2000 2100 2200 demoStore s1 done HA HG) as T.
  cbv zeta in T. destruct T as (_ & E & _).
  vm_compute in E |- *. exact E.
Defined.

(** ** Further properties of the breaker *)

Section Further.

Context {W : Type}.

Implicit Types (cb : CircuitBreaker W) (w : W) (s : Store W) (c : Counts).

(** *** The contract of [Execute] *)

Lemma Execute_parts :
  forall (R V : Type) (now1 now2 : Time) (req : Request W R V) (s : Store W),
  (forall e s1 gen, beforeRequest now1 s = ((gen, Some e), s1) ->
     forall req' : Request W R V,
       Execute now1 now2 req' s = (Returns (None, Some e), s1)) /\
  (forall gen s1 result err s2,
     beforeRequest now1 s = ((gen, None), s1) ->
     req s1 = (Returns (result, err), s2) ->
     Execute now1 now2 req s =
       (Returns (result, err),
        afterRequest now2 gen (isSuccessful (fst s2) err) s2)).
Proof.
  intros R V now1 now2 req s. split.
  - intros e s1 gen HB req'. unfold Execute. rewrite HB. reflexivity.
  - intros gen s1 result err s2 HB HR. unfold Execute. rewrite HB.
    unfold deferRecover, bind at 1. rewrite HR.
    unfold bind, field, locked, ret. reflexivity.
Qed.

(** X1. [Execute] either rejects without running the request, returning
    [(nil, rejection error)] and the store as the admission left it, or
    runs it and, when it returns, hands back its [(result, error)]
    unchanged after recording the verdict the classifier gives for that
    error under the generation of the admission. *)
Theorem Execute_contract :
  forall (R V : Type) (now1 now2 : Time) (req : Request W R V) (s : Store W),
  (forall e s1 gen, beforeRequest now1 s = ((gen, Some e), s1) ->
     forall req' : Request W R V,
       Execute now1 now2 req' s = (Returns (None, Some e), s1)) /\
  (forall gen s1 result err s2,
     beforeRequest now1 s = ((gen, None), s1) ->
     req s1 = (Returns (result, err), s2) ->
     Execute now1 now2 req s =
       (Returns (result, err),
        afterRequest now2 gen (isSuccessful (fst s2) err) s2)).
Proof. exact Execute_parts. Qed.

(** *** The open period *)

(** X2. While the breaker is Open and the instant read is not after the
    expiry, every [Execute] and every [Allow] is rejected with
    [ErrOpenState]; the request is not run and the store (state, counts,
    generation, expiry, observer's world) is left as it was. *)
Theorem open_rejects_every_call :
  forall (R V : Type) (now1 now2 : Time) (req : Request W R V) cb w,
  state cb = StateOpen -> now1 <= expiry cb ->
  Execute now1 now2 req (cb, w) = (Returns (None, Some ErrOpenState), (cb, w)) /\
  Allow now1 (cb, w) = ((None, Some ErrOpenState), (cb, w)) /\
  CircuitBreaker_State now1 (cb, w) = (StateOpen, (cb, w)).
Proof.
  intros R V now1 now2 req cb w HS LE.
  pose proof (currentState_open_early now1 cb w HS LE) as HC.
  assert (HB : beforeRequest now1 (cb, w) =
               ((generation cb, Some ErrOpenState), (cb, w))).
  { unfold beforeRequest. rewrite HC. reflexivity. }
  split; [| split].
  - unfold Execute. rewrite HB. reflexivity.
  - unfold Allow. rewrite HB. reflexivity.
  - unfold CircuitBreaker_State. rewrite HC. reflexivity.
Qed.

(** X3. The open period lasts exactly the timeout, bounds included: after
    the breaker is opened at instant [t], [State()] read at [now] answers
    Open and changes nothing as long as [now <= t + timeout], and answers
    HalfOpen, in a new generation with zero counts, as soon as
    [now > t + timeout]. *)
Theorem open_period_is_timeout : forall (t now : Time) cb w,
  state cb <> StateOpen ->
  let opened := setState StateOpen t (cb, w) in
  expiry (fst opened) = t + timeout cb /\
  (now <= t + timeout cb ->
     CircuitBreaker_State now opened = (StateOpen, opened)) /\
  (t + timeout cb < now ->
     fst (CircuitBreaker_State now opened) = StateHalfOpen /\
     counts (fst (snd (CircuitBreaker_State now opened))) = zeroCounts /\
     generation (fst (snd (CircuitBreaker_State now opened))) =
       wrap64 (wrap64 (generation cb + 1) + 1)).
Proof.
  intros t now cb w HS opened. subst opened.
  rewrite (setState_change StateOpen t cb w HS).
  set (cb1 := toNewGeneration t (set_state StateOpen cb)).
  set (w1 := match onStateChange cb with
             | Some notify => notify (name cb) (state cb) StateOpen w
             | None => w
             end).
  assert (H1 : state cb1 = StateOpen) by reflexivity.
  assert (HX : expiry cb1 = t + timeout cb) by reflexivity.
  cbn [fst]. split; [exact HX |]. split.
  - intros LE. unfold CircuitBreaker_State.
    rewrite currentState_open_early; [reflexivity | exact H1 | rewrite HX; exact LE].
  - intros LT. unfold CircuitBreaker_State.
    rewrite currentState_open_due_eq; [| exact H1 | rewrite HX; exact LT].
    cbn [fst snd].
    rewrite setState_change by (rewrite H1; discriminate).
    cbn. repeat split.
Qed.

(** *** The configuration is immutable *)

Lemma sameConfig_refl : forall cb, sameConfig cb cb.
Proof. intros cb. repeat split. Qed.

Lemma sameConfig_trans : forall a b c : CircuitBreaker W,
  sameConfig a b -> sameConfig b c -> sameConfig a c.
Proof.
  intros a b c (A1 & A2 & A3 & A4 & A5 & A6 & A7) (B1 & B2 & B3 & B4 & B5 & B6 & B7).
  repeat split; congruence.
Qed.

Lemma sameConfig_setState : forall st now s,
  sameConfig (fst s) (fst (setState st now s)).
Proof.
  intros st now [cb w]. unfold setState.
  destruct (State_eqb (state cb) st); [apply sameConfig_refl |].
  cbv zeta. destruct (onStateChange _); cbn; repeat split.
Qed.

Lemma sameConfig_currentState : forall now s,
  sameConfig (fst s) (fst (snd (currentState now s))).
Proof.
  intros now [cb w]. unfold currentState. cbn [snd].
  destruct (state cb).
  - destruct (negb (IsZero (expiry cb)) && Before (expiry cb) now);
      [cbn; repeat split | apply sameConfig_refl].
  - apply sameConfig_refl.
  - destruct (Before (expiry cb) now);
      [apply (sameConfig_setState StateHalfOpen now (cb, w)) | apply sameConfig_refl].
Qed.

Lemma sameConfig_beforeRequest : forall now s,
  sameConfig (fst s) (fst (snd (beforeRequest now s))).
Proof.
  intros now s. pose proof (sameConfig_currentState now s) as H.
  unfold beforeRequest.
  destruct (currentState now s) as [[st gen] [c1 w1]]. cbn [fst snd] in *.
  destruct st; cbn [State_eqb andb snd fst]; try exact H.
  destruct (maxRequests c1 <=? Requests (counts c1)); exact H.
Qed.

Lemma sameConfig_afterRequest : forall now G v s,
  sameConfig (fst s) (fst (afterRequest now G v s)).
Proof.
  intros now G v s. pose proof (sameConfig_currentState now s) as H.
  unfold afterRequest.
  destruct (currentState now s) as [[st gen] [c1 w1]]. cbn [fst snd] in *.
  destruct (negb (gen =? G)); [exact H |].
  apply (sameConfig_trans _ c1 _ H).
  destruct v; [unfold onSuccess | unfold onFailure]; destruct st;
    repeat match goal with
           | |- context [if ?b then _ else _] => destruct b
           end;
    try apply sameConfig_refl;
    try (apply (sameConfig_trans _
                  (set_counts (Counts_onSuccess (counts c1)) c1) _);
         [repeat split | apply (sameConfig_setState _ _ (_, _))]);
    try (apply (sameConfig_trans _
                  (set_counts (Counts_onFailure (counts c1)) c1) _);
         [repeat split | apply (sameConfig_setState _ _ (_, _))]);
    try (apply (sameConfig_setState _ _ (_, _)));
    repeat split.
Qed.

Lemma sameConfig_step : forall op s, sameConfig (fst s) (fst (step s op)).
Proof.
  intros op s. destruct op as [t | | t | t G v]; cbn [step].
  - unfold CircuitBreaker_State.
    pose proof (sameConfig_currentState t s) as H.
    destruct (currentState t s) as [[st gen] s1]. exact H.
  - apply sameConfig_refl.
  - apply sameConfig_beforeRequest.
  - apply sameConfig_afterRequest.
Qed.

Lemma sameConfig_run : forall ops s, sameConfig (fst s) (fst (run ops s)).
Proof.
  induction ops as [| op ops IH]; intros s.
  - apply sameConfig_refl.
  - cbn. apply (sameConfig_trans _ (fst (step s op)) _).
    + apply sameConfig_step.
    + apply IH.
Qed.

Lemma reachableFrom_config : forall (st : Settings W) (s : Store W),
  reachableFrom st s ->
  name (fst s) = Name st /\
  maxRequests (fst s) = (if MaxRequests st =? 0 then 1 else MaxRequests st) /\
  interval (fst s) = (if Interval st <=? 0 then 0 else Interval st) /\
  timeout (fst s) = (if Timeout st <=? 0 then 60 * Second else Timeout st) /\
  readyToTrip (fst s) =
    match ReadyToTrip st with Some f => f | None => defaultReadyToTrip end /\
  isSuccessful (fst s) =
    match IsSuccessful st with Some f => f | None => defaultIsSuccessful end /\
  onStateChange (fst s) = OnStateChange st /\
  (0 <= MaxRequests st -> 1 <= maxRequests (fst s)) /\
  0 < timeout (fst s) /\
  0 <= interval (fst s).
Proof.
  intros st s (now & w & ops & E). subst s.
  destruct (sameConfig_run ops (NewCircuitBreaker st now, w))
    as (H1 & H2 & H3 & H4 & H5 & H6 & H7).
  cbn [fst] in *.
  rewrite <- H1, <- H2, <- H3, <- H4, <- H5, <- H6, <- H7.
  unfold NewCircuitBreaker, toNewGeneration. cbn.
  repeat split.
  - intros HM. destruct (MaxRequests st =? 0) eqn:E0; [lia |].
    apply Z.eqb_neq in E0. lia.
  - destruct (Timeout st <=? 0) eqn:E0; [reflexivity |].
    apply Z.leb_gt in E0. exact E0.
  - destruct (Interval st <=? 0) eqn:E0; [discriminate |].
    apply Z.leb_gt in E0. intros C.
    apply Z.compare_gt_iff in C. lia.
Qed.

(** X4. The configuration is fixed at construction: after any sequence
    of locked sections the name, [maxRequests], interval, timeout and the
    three callbacks are the ones [NewCircuitBreaker] derived from the
    settings; in particular [maxRequests] is at least 1 for a [uint32]
    setting, the timeout is positive and the interval is not negative. *)
Theorem configuration_is_immutable : forall (st : Settings W) (s : Store W),
  reachableFrom st s ->
  name (fst s) = Name st /\
  maxRequests (fst s) = (if MaxRequests st =? 0 then 1 else MaxRequests st) /\
  interval (fst s) = (if Interval st <=? 0 then 0 else Interval st) /\
  timeout (fst s) = (if Timeout st <=? 0 then 60 * Second else Timeout st) /\
  readyToTrip (fst s) =
    match ReadyToTrip st with Some f => f | None => defaultReadyToTrip end /\
  isSuccessful (fst s) =
    match IsSuccessful st with Some f => f | None => defaultIsSuccessful end /\
  onStateChange (fst s) = OnStateChange st /\
  (0 <= MaxRequests st -> 1 <= maxRequests (fst s)) /\
  0 < timeout (fst s) /\
  0 <= interval (fst s).
Proof. exact reachableFrom_config. Qed.

(** *** Resolving twice *)

Lemma currentState_settled : forall now s,
  0 <= interval (fst s) ->
  snd (currentState now (snd (currentState now s))) = snd (currentState now s).
Proof.
  intros now [cb w] HI. cbn [fst] in HI.
  destruct (state cb) eqn:ES.
  - destruct (negb (IsZero (expiry cb)) && Before (expiry cb) now) eqn:ED.
    + assert (E1 : snd (currentState now (cb, w)) = (toNewGeneration now cb, w)).
      { unfold currentState. rewrite ES, ED. reflexivity. }
      rewrite E1.
      unfold currentState at 1. cbn [toNewGeneration state expiry snd].
      rewrite ES.
      destruct (interval cb =? 0) eqn:E0; [reflexivity |].
      assert (EB : Before (Add now (interval cb)) now = false)
        by (apply Z.ltb_ge; unfold Add; lia).
      rewrite EB, andb_false_r. reflexivity.
    + assert (E1 : snd (currentState now (cb, w)) = (cb, w)).
      { unfold currentState. rewrite ES, ED. reflexivity. }
      rewrite E1. exact E1.
  - rewrite (currentState_halfopen now cb w ES). cbn [snd].
    rewrite (currentState_halfopen now cb w ES). reflexivity.
  - destruct (Z_le_gt_dec now (expiry cb)) as [LE | GT].
    + rewrite (currentState_open_early now cb w ES LE). cbn [snd].
      rewrite (currentState_open_early now cb w ES LE). reflexivity.
    + assert (LT : expiry cb < now) by lia.
      rewrite (currentState_open_due_eq now cb w ES LT). cbn [snd].
      rewrite setState_change by (rewrite ES; discriminate).
      rewrite currentState_halfopen by reflexivity. reflexivity.
Qed.

(** X5. Resolving the lazy transitions is idempotent at an instant: in
    every reachable store, a second [State()] at the same instant answers
    the same state and leaves the store the first one produced, and the
    same holds for [currentState] with its generation. *)
Theorem State_is_idempotent : forall (now : Time) (s : Store W),
  reachable s ->
  CircuitBreaker_State now (snd (CircuitBreaker_State now s)) =
    CircuitBreaker_State now s /\
  currentState now (snd (currentState now s)) = currentState now s.
Proof.
  intros now s [st HR].
  destruct (reachableFrom_config st s HR) as (_ & _ & _ & _ & _ & _ & _ & _ & _ & HI).
  pose proof (currentState_settled now s HI) as HS.
  assert (HC : currentState now (snd (currentState now s)) = currentState now s).
  { pose proof (currentState_fst now (snd (currentState now s))) as F1.
    pose proof (currentState_fst now s) as F2.
    destruct (currentState now (snd (currentState now s))) as [p1 q1].
    destruct (currentState now s) as [p2 q2].
    cbn [fst snd] in *. subst q1. congruence. }
  split; [| exact HC].
  unfold CircuitBreaker_State.
  destruct (currentState now s) as [[st1 g1] s1] eqn:E1. cbn [snd].
  cbn [snd] in HC. rewrite HC. reflexivity.
Qed.

(** *** A call across an interval rollover *)

(** X6. A call that is admitted in a Closed generation and completes
    after the clearing interval of that generation has expired leaves no
    trace, whatever its result: the breaker is Closed in the next
    generation with all counts zero and the expiry one interval after the
    instant of completion, the trip predicate has no effect, and the
    observer is not notified. *)
Theorem call_across_rollover_is_dropped :
  forall (R V : Type) (t1 t2 : Time) (result : option R) (err : error) cb w,
  state cb = StateClosed ->
  expiry cb <> zeroTime ->
  t1 <= expiry cb -> expiry cb < t2 ->
  let r := Execute t1 t2 (pureRequest R V result err) (cb, w) in
  fst r = Returns (result, err) /\
  state (fst (snd r)) = StateClosed /\
  counts (fst (snd r)) = zeroCounts /\
  generation (fst (snd r)) = wrap64 (generation cb + 1) /\
  expiry (fst (snd r)) =
    (if interval cb =? 0 then zeroTime else t2 + interval cb) /\
  snd (snd r) = w.
Proof.
  intros R V t1 t2 result err cb w HS HZ L1 L2 r. subst r.
  assert (HB : beforeRequest t1 (cb, w) =
               ((generation cb, None),
                (set_counts (Counts_onRequest (counts cb)) cb, w))).
  { unfold beforeRequest.
    rewrite (currentState_closed_quiet t1 cb w HS (or_intror L1)).
    reflexivity. }
  set (cb1 := set_counts (Counts_onRequest (counts cb)) cb) in *.
  pose proof (proj2 (Execute_parts R V t1 t2 (pureRequest R V result err) (cb, w))
                (generation cb) (cb1, w) result err (cb1, w) HB eq_refl) as E.
  rewrite E. cbn [fst snd].
  assert (HC : snd (currentState t2 (cb1, w)) = (toNewGeneration t2 cb1, w)).
  { unfold currentState. cbn [state cb1 set_counts expiry]. rewrite HS.
    assert (ED : negb (IsZero (expiry cb)) && Before (expiry cb) t2 = true).
    { apply andb_true_iff. split.
      - apply negb_true_iff. apply Z.eqb_neq. exact HZ.
      - apply Z.ltb_lt. exact L2. }
    rewrite ED. reflexivity. }
  rewrite afterRequest_other_generation; rewrite HC.
  - cbn. rewrite HS. repeat split.
  - cbn. apply wrap64_succ_neq.
Qed.

(** *** What moves the state *)

Lemma currentState_state : forall now s,
  state (fst (snd (currentState now s))) = state (fst s) \/
  (state (fst s) = StateOpen /\
   state (fst (snd (currentState now s))) = StateHalfOpen).
Proof.
  intros now [cb w]. unfold currentState. cbn [snd fst].
  destruct (state cb) eqn:ES.
  - destruct (negb (IsZero (expiry cb)) && Before (expiry cb) now);
      left; cbn; exact ES.
  - left. exact ES.
  - destruct (Before (expiry cb) now).
    + right. split; [reflexivity |].
      rewrite setState_change by (rewrite ES; discriminate). reflexivity.
    + left. exact ES.
Qed.

Lemma beforeRequest_state : forall now s,
  state (fst (snd (beforeRequest now s))) =
  state (fst (snd (currentState now s))).
Proof.
  intros now s. unfold beforeRequest.
  destruct (currentState now s) as [[st gen] [c1 w1]]. cbn [fst snd].
  destruct st; cbn [State_eqb andb]; try reflexivity.
  destruct (maxRequests c1 <=? Requests (counts c1)); reflexivity.
Qed.

Lemma afterRequest_state : forall now G v s,
  let resolved := state (fst (snd (currentState now s))) in
  let final := state (fst (afterRequest now G v s)) in
  final = resolved \/
  (v = true /\ resolved = StateHalfOpen /\ final = StateClosed) \/
  (v = false /\ resolved <> StateOpen /\ final = StateOpen).
Proof.
  intros now G v s resolved final. subst resolved final.
  pose proof (currentState_fst now s) as F. unfold afterRequest.
  destruct (currentState now s) as [[st gen] [c1 w1]]. cbn [fst snd] in *.
  inversion F; subst st gen; clear F.
  destruct (negb (generation c1 =? G)); [left; reflexivity |].
  destruct v; [unfold onSuccess | unfold onFailure];
    destruct (state c1) eqn:ES.
  - left. cbn. exact ES.
  - match goal with |- context [if ?b then _ else _] => destruct b end.
    + right. left. rewrite setState_change by (cbn; rewrite ES; discriminate).
      repeat split.
    + left. cbn. exact ES.
  - left. exact ES.
  - match goal with |- context [if ?b then _ else _] => destruct b end.
    + right. right. rewrite setState_change by (cbn; rewrite ES; discriminate).
      repeat split. discriminate.
    + left. cbn. exact ES.
  - right. right. rewrite setState_change by (rewrite ES; discriminate).
    repeat split. discriminate.
  - left. exact ES.
Qed.

(** X7. Each change of state has one cause.  A locked section after
    which the breaker is Open although it was not before is the
    recording of a failure; one after which it is Closed although it was
    not before is the recording of a success; and a breaker found
    HalfOpen that was not HalfOpen before was Open.  In particular no
    admission, [State()] or [Counts()] ever opens or closes the breaker,
    a success never opens it and a failure never closes it. *)
Theorem state_changes_have_one_cause : forall (op : Op) (s : Store W),
  (state (fst s) <> StateOpen -> state (fst (step s op)) = StateOpen ->
     exists t G, op = OpAfterRequest t G false) /\
  (state (fst s) <> StateClosed -> state (fst (step s op)) = StateClosed ->
     exists t G, op = OpAfterRequest t G true) /\
  (state (fst s) <> StateHalfOpen -> state (fst (step s op)) = StateHalfOpen ->
     state (fst s) = StateOpen).
Proof.
  intros op s.
  assert (HStateOp : forall t, state (fst (snd (CircuitBreaker_State t s))) =
                               state (fst (snd (currentState t s)))).
  { intros t. unfold CircuitBreaker_State.
    destruct (currentState t s) as [[st gen] s1]. reflexivity. }
  destruct op as [t | | t | t G v]; cbn [step].
  - rewrite HStateOp.
    destruct (currentState_state t s) as [E | [E1 E2]];
      [rewrite E | rewrite E2];
      repeat split; intros; try congruence.
  - cbn. repeat split; intros; congruence.
  - rewrite beforeRequest_state.
    destruct (currentState_state t s) as [E | [E1 E2]];
      [rewrite E | rewrite E2];
      repeat split; intros; try congruence.
  - pose proof (afterRequest_state t G v s) as HA. cbv zeta in HA.
    destruct (currentState_state t s) as [E | [E1 E2]].
    + rewrite E in HA.
      destruct HA as [HA | [(Hv & HR & HF) | (Hv & HR & HF)]]; rewrite HA || rewrite HF.
      * repeat split; intros; congruence.
      * subst v. repeat split; intros; try congruence.
        exists t, G. reflexivity.
      * subst v. repeat split; intros; try congruence.
        exists t, G. reflexivity.
    + rewrite E2 in HA.
      destruct HA as [HA | [(Hv & HR & HF) | (Hv & HR & HF)]]; rewrite HA || rewrite HF.
      * repeat split; intros; congruence.
      * subst v. repeat split; intros; try congruence.
        exists t, G. reflexivity.
      * subst v. repeat split; intros; try congruence.
Qed.

(** *** The probe quota *)

Lemma wrap32_le : forall z, 0 <= z -> wrap32 z <= z.
Proof. intros z H. unfold wrap32. apply Z.mod_le; lia. Qed.

Lemma wrap32_bounds : forall z, 0 <= wrap32 z < 2 ^ 32.
Proof. intros z. unfold wrap32. apply Z.mod_pos_bound. lia. Qed.

Lemma inRange_zero : inRange zeroCounts.
Proof. unfold inRange. cbn. lia. Qed.

Lemma inRange_onRequest : forall c, inRange c -> inRange (Counts_onRequest c).
Proof.
  intros c (H1 & H2 & H3 & H4 & H5). unfold inRange. cbn.
  pose proof (wrap32_bounds (Requests c + 1)). tauto.
Qed.

Lemma inRange_onSuccess : forall c, inRange c -> inRange (Counts_onSuccess c).
Proof.
  intros c (H1 & H2 & H3 & H4 & H5). unfold inRange. cbn.
  pose proof (wrap32_bounds (TotalSuccesses c + 1)).
  pose proof (wrap32_bounds (ConsecutiveSuccesses c + 1)).
  repeat split; try tauto; lia.
Qed.

Lemma inRange_onFailure : forall c, inRange c -> inRange (Counts_onFailure c).
Proof.
  intros c (H1 & H2 & H3 & H4 & H5). unfold inRange. cbn.
  pose proof (wrap32_bounds (TotalFailures c + 1)).
  pose proof (wrap32_bounds (ConsecutiveFailures c + 1)).
  repeat split; try tauto; lia.
Qed.

Lemma probing_entered : forall st now cb w,
  1 <= maxRequests cb -> state cb <> st ->
  probing (setState st now (cb, w)).
Proof.
  intros st now cb w HM HS. rewrite (setState_change st now cb w HS).
  unfold probing. cbn. split; [exact HM |]. split; [apply inRange_zero |].
  intros _. lia.
Qed.

Lemma probing_currentState : forall now s,
  probing s -> probing (snd (currentState now s)).
Proof.
  intros now [cb w] HP. unfold currentState. cbn [snd].
  destruct (state cb) eqn:ES.
  - destruct (negb (IsZero (expiry cb)) && Before (expiry cb) now); [| exact HP].
    destruct HP as (HM & _ & _). unfold probing. cbn.
    split; [exact HM |]. split; [apply inRange_zero |].
    rewrite ES. discriminate.
  - exact HP.
  - destruct (Before (expiry cb) now); [| exact HP].
    apply probing_entered; [apply HP | rewrite ES; discriminate].
Qed.

Lemma probing_beforeRequest : forall now s,
  probing s -> probing (snd (beforeRequest now s)).
Proof.
  intros now s HP. apply (probing_currentState now) in HP.
  pose proof (currentState_fst now s) as F. unfold beforeRequest.
  destruct (currentState now s) as [[st gen] [c1 w1]]. cbn [fst snd] in *.
  inversion F; subst st gen; clear F.
  destruct HP as (HM & HR & HH). cbn [fst] in *.
  destruct (state c1) eqn:ES; cbn [State_eqb andb snd].
  - unfold probing. cbn. split; [exact HM |].
    split; [apply inRange_onRequest; exact HR |].
    rewrite ES. discriminate.
  - destruct (maxRequests c1 <=? Requests (counts c1)) eqn:EQ; cbn [snd].
    + unfold probing. cbn [fst]. rewrite ES. auto.
    + apply Z.leb_gt in EQ. destruct (HH eq_refl) as [HQ HC].
      unfold probing. cbn. split; [exact HM |].
      split; [apply inRange_onRequest; exact HR |].
      intros _. split; [| exact HC].
      destruct HR as (HR1 & _).
      pose proof (wrap32_le (Requests (counts c1) + 1)). lia.
  - unfold probing. cbn [fst]. rewrite ES. split; [exact HM |].
    split; [exact HR | discriminate].
Qed.

Lemma probing_afterRequest : forall now G v s,
  probing s -> probing (afterRequest now G v s).
Proof.
  intros now G v s HP. apply (probing_currentState now) in HP.
  pose proof (currentState_fst now s) as F. unfold afterRequest.
  destruct (currentState now s) as [[st gen] [c1 w1]]. cbn [fst snd] in *.
  inversion F; subst st gen; clear F.
  destruct (negb (generation c1 =? G)); [exact HP |].
  destruct HP as (HM & HR & HH). cbn [fst] in *.
  destruct v; [unfold onSuccess | unfold onFailure];
    destruct (state c1) eqn:ES.
  - unfold probing. cbn. split; [exact HM |].
    split; [apply inRange_onSuccess; exact HR |].
    rewrite ES. discriminate.
  - destruct (maxRequests (set_counts (Counts_onSuccess (counts c1)) c1) <=?
              ConsecutiveSuccesses
                (counts (set_counts (Counts_onSuccess (counts c1)) c1))) eqn:EQ.
    + apply probing_entered; [exact HM | cbn; rewrite ES; discriminate].
    + apply Z.leb_gt in EQ. cbn in EQ.
      unfold probing. cbn. split; [exact HM |].
      split; [apply inRange_onSuccess; exact HR |].
      intros _. split; [apply (HH eq_refl) | exact EQ].
  - unfold probing. cbn [fst]. rewrite ES. split; [exact HM |].
    split; [exact HR | discriminate].
  - match goal with |- context [if ?b then _ else _] => destruct b end.
    + apply probing_entered; [exact HM | cbn; rewrite ES; discriminate].
    + unfold probing. cbn. split; [exact HM |].
      split; [apply inRange_onFailure; exact HR |].
      rewrite ES. discriminate.
  - apply probing_entered; [exact HM | rewrite ES; discriminate].
  - unfold probing. cbn [fst]. rewrite ES. split; [exact HM |].
    split; [exact HR | discriminate].
Qed.

Lemma probing_run : forall ops s, probing s -> probing (run ops s).
Proof.
  induction ops as [| op ops IH]; intros s HP; [exact HP |].
  cbn. apply IH.
  destruct op as [t | | t | t G v]; cbn [step].
  - unfold CircuitBreaker_State.
    pose proof (probing_currentState t s HP) as H'.
    destruct (currentState t s) as [[st gen] s1]. exact H'.
  - exact HP.
  - apply probing_beforeRequest. exact HP.
  - apply probing_afterRequest. exact HP.
Qed.

(** X8. The probe quota is an invariant: for a [uint32] setting of
    [MaxRequests], in every reachable store the five counters are within
    [uint32], and while the breaker is HalfOpen the requests counted in
    the generation never exceed [maxRequests] and the consecutive
    successes stay below it (reaching it closes the breaker). *)
Theorem probe_quota_invariant : forall (st : Settings W) (s : Store W),
  0 <= MaxRequests st ->
  reachableFrom st s ->
  inRange (counts (fst s)) /\
  (state (fst s) = StateHalfOpen ->
     Requests (counts (fst s)) <= maxRequests (fst s) /\
     ConsecutiveSuccesses (counts (fst s)) < maxRequests (fst s)).
Proof.
  intros st s HM (now & w & ops & E). subst s.
  apply (probing_run ops).
  unfold probing, NewCircuitBreaker, toNewGeneration. cbn.
  split.
  - destruct (MaxRequests st =? 0) eqn:E0; [lia |].
    apply Z.eqb_neq in E0. lia.
  - split; [apply inRange_zero | discriminate].
Qed.

(** *** [Execute] through the two-step interface *)


(** *** Series of calls *)

Lemma Execute_pure : forall (R V : Type) (t1 t2 : Time) (result : option R)
                            (err : error) (s : Store W),
  snd (Execute t1 t2 (pureRequest R V result err) s) =
    match beforeRequest t1 s with
    | ((gen, None), s1) => afterRequest t2 gen (isSuccessful (fst s1) err) s1
    | ((_, Some _), s1) => s1
    end.
Proof.
  intros R V t1 t2 result err s.
  destruct (beforeRequest t1 s) as [[gen e] s1] eqn:HB.
  destruct e as [e |].
  - rewrite (proj1 (Execute_parts R V t1 t2 (pureRequest R V result err) s)
               e s1 gen HB). reflexivity.
  - rewrite (proj2 (Execute_parts R V t1 t2 (pureRequest R V result err) s)
               gen s1 result err s1 HB eq_refl). reflexivity.
Qed.

(** A successful call leaves a Closed breaker Closed. *)
Lemma success_keeps_closed : forall (R V : Type) (t1 t2 : Time)
                                    (result : option R) (err : error) cb w,
  state cb = StateClosed -> isSuccessful cb err = true ->
  let s' := snd (Execute t1 t2 (pureRequest R V result err) (cb, w)) in
  state (fst s') = StateClosed /\ sameConfig cb (fst s').
Proof.
  intros R V t1 t2 result err cb w HS HV s'. subst s'.
  rewrite Execute_pure.
  pose proof (beforeRequest_state t1 (cb, w)) as B1.
  pose proof (sameConfig_beforeRequest t1 (cb, w)) as B2.
  assert (B3 : state (fst (snd (currentState t1 (cb, w)))) = StateClosed).
  { destruct (currentState_state t1 (cb, w)) as [E | [E _]]; cbn [fst] in E;
      congruence. }
  destruct (beforeRequest t1 (cb, w)) as [[gen e] s1]. cbn [fst snd] in *.
  rewrite B3 in B1.
  destruct e as [e |]; [split; assumption |].
  pose proof (afterRequest_state t2 gen (isSuccessful (fst s1) err) s1) as A1.
  pose proof (sameConfig_afterRequest t2 gen (isSuccessful (fst s1) err) s1) as A2.
  cbv zeta in A1.
  assert (A3 : state (fst (snd (currentState t2 s1))) = StateClosed).
  { destruct (currentState_state t2 s1) as [E | [E _]]; congruence. }
  assert (EV : isSuccessful (fst s1) err = true).
  { destruct B2 as (_ & _ & _ & _ & _ & B6 & _). rewrite <- B6. exact HV. }
  rewrite EV in *. rewrite A3 in A1.
  split; [| exact (sameConfig_trans _ _ _ B2 A2)].
  destruct A1 as [A1 | [(_ & A1 & _) | (A1 & _)]]; congruence.
Qed.

(** A successful probe: admitted, counted, and closing at the quota. *)
Lemma probe_success : forall (R V : Type) (t1 t2 : Time)
                             (result : option R) (err : error) cb w,
  state cb = StateHalfOpen -> isSuccessful cb err = true ->
  Requests (counts cb) < maxRequests cb ->
  snd (Execute t1 t2 (pureRequest R V result err) (cb, w)) =
    onSuccess StateHalfOpen t2 (set_counts (Counts_onRequest (counts cb)) cb, w).
Proof.
  intros R V t1 t2 result err cb w HS HV HQ.
  rewrite Execute_pure. unfold beforeRequest.
  rewrite (currentState_halfopen t1 cb w HS). cbn [State_eqb andb].
  apply Z.leb_gt in HQ. rewrite HQ. cbn [fst set_counts isSuccessful].
  rewrite HV. unfold afterRequest.
  rewrite currentState_halfopen by exact HS.
  cbn [generation]. rewrite Z.eqb_refl. reflexivity.
Qed.

(** X10. Probes close the breaker exactly at the quota: from a fresh
    HalfOpen generation with [maxRequests = m], after [n] successful
    calls, made at any instants, the breaker is Closed iff [n >= m];
    before that it is still HalfOpen and has counted [n] requests and
    [n] consecutive successes. *)
Theorem probes_close_at_quota :
  forall (R V : Type) (e : errval) (calls : list (Time * Time * bool)) cb w,
  state cb = StateHalfOpen ->
  counts cb = zeroCounts ->
  1 <= maxRequests cb < 2 ^ 32 ->
  isSuccessful cb None = true ->
  (forall call, In call calls -> snd call = true) ->
  let s' := outcomeCalls R V e calls (cb, w) in
  let n := Z.of_nat (List.length calls) in
  (state (fst s') = StateClosed <-> maxRequests cb <= n) /\
  (n < maxRequests cb ->
     state (fst s') = StateHalfOpen /\
     Requests (counts (fst s')) = n /\
     ConsecutiveSuccesses (counts (fst s')) = n).
Proof.
  intros R V e calls cb w HS HC HM HV HOK.
  set (m := maxRequests cb).
  assert (G : forall calls k s,
            0 <= k ->
            (forall call, In call calls -> snd call = true) ->
            sameConfig cb (fst s) ->
            ((k < m /\ state (fst s) = StateHalfOpen /\
              Requests (counts (fst s)) = k /\
              ConsecutiveSuccesses (counts (fst s)) = k) \/
             (m <= k /\ state (fst s) = StateClosed)) ->
            let s' := outcomeCalls R V e calls s in
            let n := k + Z.of_nat (List.length calls) in
            (n < m /\ state (fst s') = StateHalfOpen /\
             Requests (counts (fst s')) = n /\
             ConsecutiveSuccesses (counts (fst s')) = n) \/
            (m <= n /\ state (fst s') = StateClosed)).
  { clear calls HOK. induction calls as [| [[t1 t2] ok] rest IH];
      intros k [c1 w1] Hk HOK HCfg HI.
    - cbn. rewrite Z.add_0_r. exact HI.
    - cbn [outcomeCalls List.length].
      assert (Eok : ok = true) by (apply (HOK (t1, t2, ok)); left; reflexivity).
      subst ok.
      replace (k + Z.of_nat (S (List.length rest)))
        with ((k + 1) + Z.of_nat (List.length rest)) by lia.
      assert (HV1 : isSuccessful c1 None = true).
      { destruct HCfg as (_ & _ & _ & _ & _ & H6 & _). cbn [fst] in H6.
        rewrite <- H6. exact HV. }
      assert (HM1 : maxRequests c1 = m).
      { destruct HCfg as (_ & H2 & _). cbn [fst] in H2. subst m. congruence. }
      cbn [fst] in HI.
      apply IH.
      + lia.
      + intros call Hc. apply HOK. right. exact Hc.
      + destruct HI as [(Lk & S1 & R1 & C1) | (Lk & S1)].
        * rewrite probe_success; [| exact S1 | exact HV1 | lia].
          apply (sameConfig_trans _ c1 _ HCfg).
          unfold onSuccess.
          match goal with |- context [if ?b then _ else _] => destruct b end.
          -- apply (sameConfig_trans _
                      (set_counts (Counts_onSuccess
                         (counts (set_counts (Counts_onRequest (counts c1)) c1)))
                         (set_counts (Counts_onRequest (counts c1)) c1)) _).
             ++ repeat split.
             ++ apply (sameConfig_setState _ _ (_, _)).
          -- repeat split.
        * apply (sameConfig_trans _ c1 _ HCfg).
          apply (success_keeps_closed R V t1 t2 None None c1 w1 S1 HV1).
      + destruct HI as [(Lk & S1 & R1 & C1) | (Lk & S1)].
        * rewrite probe_success; [| exact S1 | exact HV1 | lia].
          unfold onSuccess.
          cbn [set_counts maxRequests counts Counts_onSuccess Counts_onRequest
               ConsecutiveSuccesses Requests].
          rewrite C1, HM1.
          assert (EW : wrap32 (k + 1) = k + 1).
          { apply wrap32_small. subst m. lia. }
          rewrite EW.
          destruct (m <=? k + 1) eqn:EQ.
          -- apply Z.leb_le in EQ. right.
             rewrite setState_change by (cbn; rewrite S1; discriminate).
             split; [exact EQ | reflexivity].
          -- apply Z.leb_gt in EQ. left. cbn. rewrite R1, C1, EW.
             repeat split; assumption.
        * right. split; [lia |].
          apply (success_keeps_closed R V t1 t2 None None c1 w1 S1 HV1). }
  intros s' n.
  assert (G0 : (0 < m /\ state cb = StateHalfOpen /\
                Requests (counts cb) = 0 /\ ConsecutiveSuccesses (counts cb) = 0) \/
               (m <= 0 /\ state cb = StateClosed)).
  { left. rewrite HC. subst m. repeat split; [lia | exact HS]. }
  pose proof (G calls 0 (cb, w) (Z.le_refl 0) HOK (sameConfig_refl cb) G0) as HG.
  cbv zeta in HG. rewrite Z.add_0_l in HG. fold s' n in HG.
  destruct HG as [(L & S1 & R1 & C1) | (L & S1)].
  - split.
    + rewrite S1. split; [discriminate | lia].
    + intros _. repeat split; assumption.
  - split.
    + rewrite S1. split; [intros _; exact L | reflexivity].
    + intros C. lia.
Qed.

(** X11. While HalfOpen exactly [maxRequests] calls are admitted until
    an outcome is recorded: in a series of admissions from a fresh
    HalfOpen generation, made at any instants, the [k]-th one (from 0) is
    admitted when [k < maxRequests] and rejected with
    [ErrTooManyRequests] otherwise; the breaker stays HalfOpen and has
    counted [min n maxRequests] requests after [n] of them. *)
Theorem halfopen_admits_exactly_maxRequests :
  forall (instants : list Time) cb w,
  state cb = StateHalfOpen ->
  counts cb = zeroCounts ->
  1 <= maxRequests cb < 2 ^ 32 ->
  let r := admissions instants (cb, w) in
  List.length (fst r) = List.length instants /\
  (forall k err, nth_error (fst r) k = Some err ->
     err = if Z.of_nat k <? maxRequests cb then None else Some ErrTooManyRequests) /\
  state (fst (snd r)) = StateHalfOpen /\
  Requests (counts (fst (snd r))) =
    Z.min (Z.of_nat (List.length instants)) (maxRequests cb).
Proof.
  intros instants cb w HS HC HM.
  set (m := maxRequests cb).
  assert (G : forall instants j bk w1,
            state bk = StateHalfOpen -> maxRequests bk = m ->
            0 <= j <= m -> Requests (counts bk) = j ->
            let r := admissions instants (bk, w1) in
            List.length (fst r) = List.length instants /\
            (forall k err, nth_error (fst r) k = Some err ->
               err = if j + Z.of_nat k <? m then None
                     else Some ErrTooManyRequests) /\
            state (fst (snd r)) = StateHalfOpen /\
            Requests (counts (fst (snd r))) =
              Z.min (j + Z.of_nat (List.length instants)) m).
  { clear instants. induction instants as [| t rest IH];
      intros j bk w1 S1 M1 Hj R1.
    - cbn. repeat split; try assumption.
      + intros k err H. destruct k; discriminate.
      + rewrite Z.add_0_r. lia.
    - cbn [admissions]. unfold beforeRequest.
      rewrite (currentState_halfopen t bk w1 S1). cbn [State_eqb andb].
      rewrite M1, R1.
      destruct (m <=? j) eqn:EQ.
      + apply Z.leb_le in EQ.
        specialize (IH j bk w1 S1 M1 Hj R1). cbv zeta in IH.
        destruct (admissions rest (bk, w1)) as [errs s2].
        cbn [fst snd List.length] in *.
        destruct IH as (IL & IK & IS & IR).
        split; [rewrite IL; reflexivity |]. split; [| split; [exact IS |]].
        * intros k err H. destruct k as [| k]; cbn in H.
          -- inversion H; subst err.
             assert (E : (j + Z.of_nat 0 <? m) = false) by (apply Z.ltb_ge; lia).
             rewrite E. reflexivity.
          -- rewrite (IK k err H).
             assert (E1 : (j + Z.of_nat k <? m) = false) by (apply Z.ltb_ge; lia).
             assert (E2 : (j + Z.of_nat (S k) <? m) = false) by (apply Z.ltb_ge; lia).
             rewrite E1, E2. reflexivity.
        * rewrite IR. lia.
      + apply Z.leb_gt in EQ.
        assert (EW : wrap32 (j + 1) = j + 1)
          by (apply wrap32_small; subst m; lia).
        specialize (IH (j + 1)
                      (set_counts (Counts_onRequest (counts bk)) bk) w1).
        cbv zeta in IH.
        destruct (admissions rest
                    (set_counts (Counts_onRequest (counts bk)) bk, w1))
          as [errs s2].
        cbn [fst snd List.length] in *.
        destruct IH as (IL & IK & IS & IR);
          [exact S1 | exact M1 | lia | cbn; rewrite R1; exact EW |].
        split; [rewrite IL; reflexivity |]. split; [| split; [exact IS |]].
        * intros k err H. destruct k as [| k]; cbn in H.
          -- inversion H; subst err.
             assert (E : (j + Z.of_nat 0 <? m) = true) by (apply Z.ltb_lt; lia).
             rewrite E. reflexivity.
          -- rewrite (IK k err H).
             replace (j + 1 + Z.of_nat k) with (j + Z.of_nat (S k)) by lia.
             reflexivity.
        * rewrite IR. lia. }
  intros r.
  pose proof (G instants 0 cb w HS eq_refl) as HG. cbv zeta in HG.
  fold m in HG. fold r in HG.
  destruct HG as (IL & IK & IS & IR);
    [subst m; lia | rewrite HC; reflexivity |].
  split; [exact IL |]. split; [| split; [exact IS |]].
  - intros k err H. rewrite (IK k err H). reflexivity.
  - rewrite IR. reflexivity.
Qed.

(** *** Counting in the closed state *)

Lemma closed_call_counted : forall (R V : Type) (t1 t2 : Time)
                                   (result : option R) (err : error) cb w,
  state cb = StateClosed -> quiet cb t1 -> quiet cb t2 ->
  snd (Execute t1 t2 (pureRequest R V result err) (cb, w)) =
    if isSuccessful cb err
    then onSuccess StateClosed t2 (set_counts (Counts_onRequest (counts cb)) cb, w)
    else onFailure StateClosed t2 (set_counts (Counts_onRequest (counts cb)) cb, w).
Proof.
  intros R V t1 t2 result err cb w HS Q1 Q2.
  rewrite Execute_pure. unfold beforeRequest.
  rewrite (currentState_closed_quiet t1 cb w HS Q1). cbn [State_eqb andb].
  cbn [fst set_counts isSuccessful]. unfold afterRequest.
  rewrite currentState_closed_quiet by assumption.
  cbn [generation]. rewrite Z.eqb_refl. reflexivity.
Qed.

(** X12. In a Closed generation the counts are the tally of the calls:
    for calls made while the rollover of the generation is not due and
    whose tallies the trip predicate does not accept, the breaker stays
    Closed in the same generation, the observer is not notified, and the
    counts are those obtained by applying to the initial counts, call by
    call, [onRequest] followed by [onSuccess] or [onFailure]. *)
Theorem closed_counts_are_the_tally :
  forall (R V : Type) (e : errval) (calls : list (Time * Time * bool)) cb w,
  state cb = StateClosed ->
  isSuccessful cb None = true ->
  isSuccessful cb (Some e) = false ->
  (forall t1 t2 ok, In (t1, t2, ok) calls -> quiet cb t1 /\ quiet cb t2) ->
  (forall k, readyToTrip cb
               (tallyFrom (counts cb) (firstn k (map snd calls))) = false) ->
  let s' := outcomeCalls R V e calls (cb, w) in
  s' = (set_counts (tallyFrom (counts cb) (map snd calls)) cb, w) /\
  state (fst s') = StateClosed /\
  generation (fst s') = generation cb /\
  counts (fst s') = tallyFrom (counts cb) (map snd calls).
Proof.
  intros R V e calls cb w HS HN HE HQ HT s'.
  assert (E : s' = (set_counts (tallyFrom (counts cb) (map snd calls)) cb, w)).
  { subst s'. revert cb HS HN HE HQ HT.
    induction calls as [| [[t1 t2] ok] rest IH]; intros cb HS HN HE HQ HT.
    - cbn. destruct cb; reflexivity.
    - cbn [outcomeCalls map snd tallyFrom fold_left].
      destruct (HQ t1 t2 ok (or_introl eq_refl)) as [Q1 Q2].
      rewrite closed_call_counted by assumption.
      assert (E1 : (if isSuccessful cb (if ok then None else Some e)
                    then onSuccess StateClosed t2
                           (set_counts (Counts_onRequest (counts cb)) cb, w)
                    else onFailure StateClosed t2
                           (set_counts (Counts_onRequest (counts cb)) cb, w)) =
                   (set_counts (record ok (counts cb)) cb, w)).
      { destruct ok.
        - rewrite HN. reflexivity.
        - rewrite HE. unfold onFailure.
          cbn [set_counts readyToTrip counts].
          specialize (HT 1%nat). cbn in HT. unfold record in HT.
          rewrite HT. reflexivity. }
      rewrite E1.
      rewrite (IH (set_counts (record ok (counts cb)) cb)).
      + reflexivity.
      + exact HS.
      + exact HN.
      + exact HE.
      + intros u1 u2 ok' HIn. apply (HQ u1 u2 ok'). right. exact HIn.
      + intros k. specialize (HT (S k)). exact HT. }
  split; [exact E |]. rewrite E. cbn. repeat split. exact HS.
Qed.

Lemma tallyFrom_app : forall oks c ok,
  tallyFrom c (oks ++ [ok]) = record ok (tallyFrom c oks).
Proof. intros oks c ok. unfold tallyFrom. rewrite fold_left_app. reflexivity. Qed.

Lemma streak_le_length : forall b l, (streak b l <= List.length l)%nat.
Proof.
  intros b l. induction l as [| x rest IH]; cbn; [lia |].
  destruct (Bool.eqb x b); lia.
Qed.

Lemma count_occ_le_length : forall (b : bool) l,
  (count_occ Bool.bool_dec l b <= List.length l)%nat.
Proof.
  intros b l. induction l as [| x rest IH]; cbn; [lia |].
  destruct (Bool.bool_dec x b); lia.
Qed.

(** X13. What the five counters mean: after fewer than [2^32] counted
    calls from zero, [Requests] is the number of calls, [TotalSuccesses]
    and [TotalFailures] are the numbers of successes and of failures, and
    [ConsecutiveSuccesses] and [ConsecutiveFailures] are the lengths of
    the run of successes, respectively failures, that ends the series. *)
Theorem counts_of_a_tally : forall oks : list bool,
  Z.of_nat (List.length oks) < 2 ^ 32 ->
  Requests (tally oks) = Z.of_nat (List.length oks) /\
  TotalSuccesses (tally oks) = Z.of_nat (count_occ Bool.bool_dec oks true) /\
  TotalFailures (tally oks) = Z.of_nat (count_occ Bool.bool_dec oks false) /\
  ConsecutiveSuccesses (tally oks) = Z.of_nat (streak true (rev oks)) /\
  ConsecutiveFailures (tally oks) = Z.of_nat (streak false (rev oks)).
Proof.
  intros oks. unfold tally.
  induction oks as [| ok oks IH] using rev_ind; intros HL.
  - cbn. repeat split.
  - rewrite length_app in HL. cbn [List.length] in HL.
    rewrite length_app. cbn [List.length].
    destruct IH as (I1 & I2 & I3 & I4 & I5); [lia |].
    rewrite tallyFrom_app, rev_unit, !count_occ_app.
    pose proof (count_occ_le_length true oks) as B1.
    pose proof (count_occ_le_length false oks) as B2.
    pose proof (streak_le_length true (rev oks)) as B3.
    pose proof (streak_le_length false (rev oks)) as B4.
    rewrite length_rev in B3, B4.
    destruct ok; unfold record; cbn;
      rewrite ?I1, ?I2, ?I3, ?I4, ?I5;
      repeat split;
      try (rewrite wrap32_small by lia; lia);
      lia.
Qed.

(** X14. An Open breaker is frozen until its timeout: while it is Open,
    a locked section that reads an instant not after the expiry
    ([State()], an admission, the report of an outcome of any generation
    and verdict) and [Counts()] leave the store exactly as it was. *)
Theorem open_breaker_is_frozen : forall (op : Op) cb w,
  state cb = StateOpen ->
  (forall t, opInstant op = Some t -> t <= expiry cb) ->
  step (cb, w) op = (cb, w).
Proof.
  intros op cb w HS HT.
  destruct op as [t | | t | t G v]; cbn [step].
  - unfold CircuitBreaker_State.
    rewrite currentState_open_early; [reflexivity | exact HS | apply HT; reflexivity].
  - reflexivity.
  - unfold beforeRequest.
    rewrite currentState_open_early; [reflexivity | exact HS | apply HT; reflexivity].
  - unfold afterRequest.
    rewrite currentState_open_early; [| exact HS | apply HT; reflexivity].
    destruct (negb (generation cb =? G)); [reflexivity |].
    destruct v; reflexivity.
Qed.

(** *** The generation as a stamp *)

Lemma set_counts_same : forall cb, set_counts (counts cb) cb = cb.
Proof. intros []. reflexivity. Qed.

(** After the resolution, the report of an outcome either updates the
    counts once at most, or moves to the next generation. *)
Lemma afterRequest_resolved : forall now G v s,
  let r := snd (currentState now s) in
  (exists c', (c' = counts (fst r) \/ c' = Counts_onSuccess (counts (fst r)) \/
               c' = Counts_onFailure (counts (fst r))) /\
              afterRequest now G v s = (set_counts c' (fst r), snd r)) \/
  generation (fst (afterRequest now G v s)) = wrap64 (generation (fst r) + 1).
Proof.
  intros now G v s r. subst r.
  pose proof (currentState_fst now s) as F. unfold afterRequest.
  destruct (currentState now s) as [[st gen] [b1 w1]]. cbn [fst snd] in *.
  inversion F; subst st gen; clear F.
  assert (Same : exists c', (c' = counts b1 \/ c' = Counts_onSuccess (counts b1) \/
                             c' = Counts_onFailure (counts b1)) /\
                            (b1, w1) = (set_counts c' b1, w1)).
  { exists (counts b1). split; [left; reflexivity |].
    rewrite set_counts_same. reflexivity. }
  destruct (negb (generation b1 =? G)); [left; exact Same |].
  destruct v; [unfold onSuccess | unfold onFailure];
    destruct (state b1) eqn:ES.
  - left. exists (Counts_onSuccess (counts b1)). split; [right; left |]; reflexivity.
  - match goal with |- context [if ?b then _ else _] => destruct b end.
    + right. rewrite setState_change by (cbn; rewrite ES; discriminate). reflexivity.
    + left. exists (Counts_onSuccess (counts b1)).
      split; [right; left |]; reflexivity.
  - left. exact Same.
  - match goal with |- context [if ?b then _ else _] => destruct b end.
    + right. rewrite setState_change by (cbn; rewrite ES; discriminate). reflexivity.
    + left. exists (Counts_onFailure (counts b1)).
      split; [right; right |]; reflexivity.
  - right. rewrite setState_change by (rewrite ES; discriminate). reflexivity.
  - left. exact Same.
Qed.

(** X16. The generation stamps the epoch: a locked section after which
    the generation is the one before it has neither changed the state,
    nor the expiry, nor notified the observer, nor cleared the counts;
    all it may have done is one [onRequest], one [onSuccess] or one
    [onFailure] on the counts.  Every clear and every transition shows in
    the generation. *)
Theorem generation_stamps_the_epoch : forall (op : Op) (s : Store W),
  generation (fst (step s op)) = generation (fst s) ->
  exists c',
    (c' = counts (fst s) \/ c' = Counts_onRequest (counts (fst s)) \/
     c' = Counts_onSuccess (counts (fst s)) \/
     c' = Counts_onFailure (counts (fst s))) /\
    step s op = (set_counts c' (fst s), snd s).
Proof.
  intros op s HG.
  assert (Same : exists c',
            (c' = counts (fst s) \/ c' = Counts_onRequest (counts (fst s)) \/
             c' = Counts_onSuccess (counts (fst s)) \/
             c' = Counts_onFailure (counts (fst s))) /\
            s = (set_counts c' (fst s), snd s)).
  { exists (counts (fst s)). split; [left; reflexivity |].
    rewrite set_counts_same. destruct s; reflexivity. }
  destruct op as [t | | t | t G v]; cbn [step] in *.
  - destruct (currentState_generation t s) as [E | E].
    + unfold CircuitBreaker_State.
      destruct (currentState t s) as [[st gen] s1]. cbn [snd] in *.
      subst s1. exact Same.
    + exfalso. unfold CircuitBreaker_State in HG.
      destruct (currentState t s) as [[st gen] s1]. cbn [snd] in *.
      rewrite E in HG. exact (wrap64_succ_neq _ HG).
  - exact Same.
  - pose proof (currentState_fst t s) as F.
    destruct (currentState_generation t s) as [E | E].
    + unfold beforeRequest in *.
      destruct (currentState t s) as [[st gen] s1]. cbn [fst snd] in *.
      subst s1. destruct s as [b1 w1]. cbn [fst snd] in *.
      destruct st; cbn [State_eqb andb] in *; try exact Same.
      * exists (Counts_onRequest (counts b1)).
        split; [right; left |]; reflexivity.
      * destruct (maxRequests b1 <=? Requests (counts b1)); [exact Same |].
        exists (Counts_onRequest (counts b1)).
        split; [right; left |]; reflexivity.
    + exfalso. unfold beforeRequest in HG.
      destruct (currentState t s) as [[st gen] [b1 w1]]. cbn [fst snd] in *.
      assert (HG' : generation b1 = generation (fst s)).
      { destruct st; cbn [State_eqb andb] in HG; try exact HG.
        destruct (maxRequests b1 <=? Requests (counts b1)); exact HG. }
      rewrite E in HG'. exact (wrap64_succ_neq _ HG').
  - pose proof (afterRequest_resolved t G v s) as HA. cbv zeta in HA.
    destruct (currentState_generation t s) as [E | E].
    + rewrite E in HA. destruct HA as [(c' & Hc & HE) | HB].
      * exists c'. split; [| exact HE].
        destruct Hc as [Hc | [Hc | Hc]]; auto.
      * exfalso. rewrite HB in HG. exact (wrap64_succ_neq _ HG).
    + exfalso. destruct HA as [(c' & Hc & HE) | HB].
      * rewrite HE in HG. cbn in HG. rewrite E in HG.
        exact (wrap64_succ_neq _ HG).
      * rewrite HB, E in HG. exact (wrap64_succ_succ_neq _ HG).
Qed.

(** *** The closed state admits *)

(** X17. A Closed breaker never rejects: whatever the instant, the
    admission succeeds, the breaker is still Closed, and [Execute] runs
    the request; when the request returns, its result is handed back. *)
Theorem closed_breaker_admits :
  forall (R V : Type) (now1 now2 : Time) (req : Request W R V) cb w,
  state cb = StateClosed ->
  exists gen s1,
    beforeRequest now1 (cb, w) = ((gen, None), s1) /\
    state (fst s1) = StateClosed /\
    gen = generation (fst s1) /\
    (exists done, Allow now1 (cb, w) = ((Some done, None), s1)) /\
    (forall result err s2, req s1 = (Returns (result, err), s2) ->
       fst (Execute now1 now2 req (cb, w)) = Returns (result, err)).
Proof.
  intros R V now1 now2 req cb w HS.
  assert (HR : state (fst (snd (currentState now1 (cb, w)))) = StateClosed).
  { destruct (currentState_state now1 (cb, w)) as [E | [E _]]; cbn [fst] in E;
      congruence. }
  pose proof (currentState_fst now1 (cb, w)) as F.
  assert (HB : exists gen s1,
             beforeRequest now1 (cb, w) = ((gen, None), s1) /\
             state (fst s1) = StateClosed /\ gen = generation (fst s1)).
  { unfold beforeRequest.
    destruct (currentState now1 (cb, w)) as [[st gen] [b1 w1]].
    cbn [fst snd] in *. inversion F; subst st gen; clear F.
    rewrite HR. cbn [State_eqb andb].
    eexists. eexists. split; [reflexivity |]. cbn. auto. }
  destruct HB as (gen & s1 & HB & H1 & H2).
  exists gen, s1. split; [exact HB |]. split; [exact H1 |]. split; [exact H2 |].
  split.
  - unfold Allow. rewrite HB. eexists. reflexivity.
  - intros result err s2 HQ.
    rewrite (proj2 (Execute_parts R V now1 now2 req (cb, w))
               gen s1 result err s2 HB HQ). reflexivity.
Qed.

End Further.

(** *** The observer's log *)

Lemma transition_irrefl : forall a b, transition a b = true -> a <> b.
Proof. intros [] [] H; cbn in H; congruence. Qed.

Lemma walk_snoc : forall n log a b c,
  walk n a log = Some b -> transition b c = true ->
  walk n a (log ++ [(n, b, c)]) = Some c.
Proof.
  intros n log. induction log as [| [[n' from] to] rest IH]; intros a b c HW HT.
  - cbn in HW. inversion HW; subst b. cbn.
    rewrite String.eqb_refl, State_eqb_refl, HT. reflexivity.
  - cbn in HW |- *.
    destruct (String.eqb n' n && State_eqb from a && transition from to);
      [| discriminate].
    apply (IH to b c HW HT).
Qed.

Lemma logged_setState : forall n st now s,
  logged n s -> transition (state (fst s)) st = true ->
  logged n (setState st now s).
Proof.
  intros n st now [cb log] (HN & HO & HW) HT. cbn [fst snd] in *.
  rewrite setState_change by (apply transition_irrefl; exact HT).
  rewrite HO, HN. unfold logged, logObserver. cbn [fst snd].
  split; [exact HN |]. split; [exact HO |].
  apply walk_snoc; assumption.
Qed.

Lemma logged_currentState : forall n now s,
  logged n s -> logged n (snd (currentState now s)).
Proof.
  intros n now [cb log] HL. unfold currentState. cbn [snd].
  destruct (state cb) eqn:ES.
  - destruct (negb (IsZero (expiry cb)) && Before (expiry cb) now); [| exact HL].
    destruct HL as (HN & HO & HW). unfold logged. cbn in *.
    rewrite ES in *. auto.
  - exact HL.
  - destruct (Before (expiry cb) now); [| exact HL].
    apply logged_setState; [exact HL | cbn; rewrite ES; reflexivity].
Qed.

Lemma logged_set_counts : forall n c cb log,
  logged n (cb, log) -> logged n (set_counts c cb, log).
Proof. intros n c cb log HL. exact HL. Qed.

Lemma logged_step : forall n op s, logged n s -> logged n (step s op).
Proof.
  intros n op s HL. destruct op as [t | | t | t G v]; cbn [step].
  - unfold CircuitBreaker_State.
    pose proof (logged_currentState n t s HL) as H'.
    destruct (currentState t s) as [[st gen] s1]. exact H'.
  - exact HL.
  - pose proof (logged_currentState n t s HL) as H'.
    unfold beforeRequest.
    destruct (currentState t s) as [[st gen] [c1 w1]]. cbn [snd] in *.
    destruct st; cbn [State_eqb andb snd]; try exact H'.
    destruct (maxRequests c1 <=? Requests (counts c1)); exact H'.
  - pose proof (logged_currentState n t s HL) as H'.
    pose proof (currentState_fst t s) as F.
    unfold afterRequest.
    destruct (currentState t s) as [[st gen] [c1 w1]]. cbn [fst snd] in *.
    inversion F; subst st gen; clear F.
    destruct (negb (generation c1 =? G)); [exact H' |].
    destruct v; [unfold onSuccess | unfold onFailure];
      destruct (state c1) eqn:ES;
      repeat match goal with
             | |- context [if ?b then _ else _] => destruct b
             end;
      try exact H';
      try (apply logged_setState;
           [try apply logged_set_counts; exact H' | cbn; rewrite ES; reflexivity]);
      apply logged_set_counts; exact H'.
Qed.

Lemma logged_run : forall n ops s, logged n s -> logged n (run ops s).
Proof.
  intros n ops. induction ops as [| op ops IH]; intros s HL; [exact HL |].
  cbn. apply IH. apply logged_step. exact HL.
Qed.

(** X15. The notifications tell the history of the breaker: with an
    observer that logs its calls, after any sequence of locked sections
    on a freshly constructed breaker the log is a walk of the state
    machine from Closed to the current state in which every entry
    carries the breaker's name, starts where the previous one ended and
    is one of Closed to Open, Open to HalfOpen, HalfOpen to Closed and
    HalfOpen to Open; no other change of state is ever notified, and
    none happens without a notification. *)
Theorem notifications_walk_the_state_machine :
  forall (st : Settings (list Event)) (now : Time) (ops : list Op),
  OnStateChange st = Some logObserver ->
  let s := run ops (NewCircuitBreaker st now, []) in
  walk (Name st) StateClosed (snd s) = Some (state (fst s)).
Proof.
  intros st now ops HO s. subst s.
  apply (logged_run (Name st) ops).
  unfold logged. cbn. repeat split. exact HO.
Qed.

(** ** The further properties at concrete inputs *)

Example openBreaker_is_the_tripped_one : fst trippedStore = openBreaker.
Proof. vm_compute. reflexivity. Qed.

Example demo_mixed_calls_counted :
  counts (fst (outcomeCalls unit string demoError threeCalls (demoBreaker, []))) =
    mkCounts 3 1 2 0 1.
Proof. vm_compute. reflexivity. Qed.

Example demo_three_probes_then_rejected :
  fst (admissions [5000; 5001; 5002; 5003] (probingBreaker, [])) =
    [None; None; None; Some ErrTooManyRequests].
Proof. vm_compute. reflexivity. Qed.

Lemma open_rejects_every_call_witness :
  state openBreaker = StateOpen /\
  3000 <= expiry openBreaker /\
  Execute 3000 3500 succeedingRequest (openBreaker, []) =
    (Returns (None, Some ErrOpenState), (openBreaker, [])).
Proof.
  assert (HS : state openBreaker = StateOpen) by reflexivity.
  assert (HE : 3000 <= expiry openBreaker) by (vm_compute; discriminate).
  split; [exact HS |]. split; [exact HE |].
  exact (proj1 (open_rejects_every_call unit string 3000 3500 succeedingRequest
                  openBreaker [] HS HE)).
Defined.

Lemma open_period_is_timeout_witness :
  state demoBreaker <> StateOpen /\
  expiry (fst (setState StateOpen 5000 (demoBreaker, []))) =
    5000 + timeout demoBreaker.
Proof.
  assert (HS : state demoBreaker <> StateOpen) by (vm_compute; discriminate).
  split; [exact HS |].
  exact (proj1 (open_period_is_timeout 5000 6000 demoBreaker [] HS)).
Defined.

Lemma configuration_is_immutable_witness :
  reachableFrom demoSettings (run sixFailureOps (demoBreaker, [])) /\
  name (fst (run sixFailureOps (demoBreaker, []))) = Name demoSettings.
Proof.
  assert (HR : reachableFrom demoSettings (run sixFailureOps (demoBreaker, []))).
  { exists 1000, [], sixFailureOps. reflexivity. }
  split; [exact HR |].
  exact (proj1 (configuration_is_immutable demoSettings _ HR)).
Defined.

Lemma State_is_idempotent_witness :
  reachable (run sixFailureOps (demoBreaker, [])) /\
  currentState probeTime
    (snd (currentState probeTime (run sixFailureOps (demoBreaker, [])))) =
  currentState probeTime (run sixFailureOps (demoBreaker, [])).
Proof.
  assert (HR : reachable (run sixFailureOps (demoBreaker, []))).
  { exists demoSettings, 1000, [], sixFailureOps. reflexivity. }
  split; [exact HR |].
  exact (proj2 (State_is_idempotent probeTime _ HR)).
Defined.

Lemma call_across_rollover_is_dropped_witness :
  state rollingBreaker = StateClosed /\
  expiry rollingBreaker <> zeroTime /\
  2000 <= expiry rollingBreaker /\
  expiry rollingBreaker < 2000 + 11 * Second /\
  counts (fst (snd (Execute 2000 (2000 + 11 * Second)
                      (pureRequest unit string None (Some demoError))
                      (rollingBreaker, [])))) = zeroCounts.
Proof.
  assert (H1 : state rollingBreaker = StateClosed) by reflexivity.
  assert (H2 : expiry rollingBreaker <> zeroTime) by (vm_compute; discriminate).
  assert (H3 : 2000 <= expiry rollingBreaker) by (vm_compute; discriminate).
  assert (H4 : expiry rollingBreaker < 2000 + 11 * Second)
    by (vm_compute; reflexivity).
  repeat (split; [assumption |]).
  destruct (call_across_rollover_is_dropped unit string 2000 (2000 + 11 * Second)
              None (Some demoError) rollingBreaker [] H1 H2 H3 H4)
    as (_ & _ & HC & _).
  exact HC.
Defined.

Lemma probe_quota_invariant_witness :
  0 <= MaxRequests demoSettings /\
  reachableFrom demoSettings (run sixFailureOps (demoBreaker, [])) /\
  inRange (counts (fst (run sixFailureOps (demoBreaker, [])))).
Proof.
  assert (HM : 0 <= MaxRequests demoSettings) by (vm_compute; discriminate).
  assert (HR : reachableFrom demoSettings (run sixFailureOps (demoBreaker, []))).
  { exists 1000, [], sixFailureOps. reflexivity. }
  split; [exact HM |]. split; [exact HR |].
  exact (proj1 (probe_quota_invariant demoSettings _ HM HR)).
Defined.

Lemma probes_close_at_quota_witness :
  state probingBreaker = StateHalfOpen /\
  counts probingBreaker = zeroCounts /\
  1 <= maxRequests probingBreaker < 2 ^ 32 /\
  isSuccessful probingBreaker None = true /\
  (state (fst (outcomeCalls unit string demoError
                 [(5000, 5001, true); (5002, 5003, true); (5004, 5005, true)]
                 (probingBreaker, []))) = StateClosed <->
   maxRequests probingBreaker <=
     Z.of_nat (List.length
                 [(5000, 5001, true); (5002, 5003, true); (5004, 5005, true)])).
Proof.
  assert (H1 : state probingBreaker = StateHalfOpen) by reflexivity.
  assert (H2 : counts probingBreaker = zeroCounts) by reflexivity.
  assert (H3 : 1 <= maxRequests probingBreaker < 2 ^ 32)
    by (vm_compute; split; [discriminate | reflexivity]).
  assert (H4 : isSuccessful probingBreaker None = true) by reflexivity.
  repeat (split; [assumption |]).
  assert (H5 : forall call,
             In call [(5000, 5001, true); (5002, 5003, true); (5004, 5005, true)] ->
             snd call = true).
  { intros call [E | [E | [E | []]]]; subst call; reflexivity. }
  exact (proj1 (probes_close_at_quota unit string demoError _
                  probingBreaker [] H1 H2 H3 H4 H5)).
Defined.

Lemma halfopen_admits_exactly_maxRequests_witness :
  state probingBreaker = StateHalfOpen /\
  counts probingBreaker = zeroCounts /\
  1 <= maxRequests probingBreaker < 2 ^ 32 /\
  state (fst (snd (admissions [5000; 5001; 5002; 5003] (probingBreaker, [])))) =
    StateHalfOpen.
Proof.
  assert (H1 : state probingBreaker = StateHalfOpen) by reflexivity.
  assert (H2 : counts probingBreaker = zeroCounts) by reflexivity.
  assert (H3 : 1 <= maxRequests probingBreaker < 2 ^ 32)
    by (vm_compute; split; [discriminate | reflexivity]).
  repeat (split; [assumption |]).
  destruct (halfopen_admits_exactly_maxRequests [5000; 5001; 5002; 5003]
              probingBreaker [] H1 H2 H3)
    as (_ & _ & H & _).
  exact H.
Defined.

Lemma closed_counts_are_the_tally_witness :
  state demoBreaker = StateClosed /\
  counts (fst (outcomeCalls unit string demoError threeCalls (demoBreaker, []))) =
    tallyFrom (counts demoBreaker) (map snd threeCalls).
Proof.
  assert (H1 : state demoBreaker = StateClosed) by reflexivity.
  assert (H2 : isSuccessful demoBreaker None = true) by reflexivity.
  assert (H3 : isSuccessful demoBreaker (Some demoError) = false) by reflexivity.
  assert (H4 : forall t1 t2 ok, In (t1, t2, ok) threeCalls ->
                                quiet demoBreaker t1 /\ quiet demoBreaker t2).
  { intros t1 t2 ok _. split; left; reflexivity. }
  assert (H5 : forall k,
             readyToTrip demoBreaker
               (tallyFrom (counts demoBreaker) (firstn k (map snd threeCalls))) =
             false).
  { intros [| [| [| [| k]]]]; vm_compute; reflexivity. }
  split; [exact H1 |].
  destruct (closed_counts_are_the_tally unit string demoError threeCalls
              demoBreaker [] H1 H2 H3 H4 H5)
    as (_ & _ & _ & H).
  exact H.
Defined.

Lemma counts_of_a_tally_witness :
  Z.of_nat (List.length [false; true; true; false; false]) < 2 ^ 32 /\
  ConsecutiveFailures (tally [false; true; true; false; false]) =
    Z.of_nat (streak false (rev [false; true; true; false; false])).
Proof.
  assert (HL : Z.of_nat (List.length [false; true; true; false; false]) < 2 ^ 32)
    by (vm_compute; reflexivity).
  split; [exact HL |].
  destruct (counts_of_a_tally [false; true; true; false; false] HL)
    as (_ & _ & _ & _ & E).
  exact E.
Defined.

Lemma open_breaker_is_frozen_witness :
  state openBreaker = StateOpen /\
  step (openBreaker, []) (OpAfterRequest 3000 2 true) = (openBreaker, []).
Proof.
  assert (HS : state openBreaker = StateOpen) by reflexivity.
  split; [exact HS |].
  assert (HT : forall t, opInstant (OpAfterRequest 3000 2 true) = Some t ->
                         t <= expiry openBreaker).
  { intros t E. inversion E; subst t. vm_compute. discriminate. }
  exact (open_breaker_is_frozen (OpAfterRequest 3000 2 true) openBreaker [] HS HT).
Defined.

Lemma notifications_walk_the_state_machine_witness :
  OnStateChange demoSettings = Some logObserver /\
  walk (Name demoSettings) StateClosed
    (snd (run sixFailureOps (NewCircuitBreaker demoSettings 1000, []))) =
  Some (state (fst (run sixFailureOps (NewCircuitBreaker demoSettings 1000, [])))).
Proof.
  split; [reflexivity |].
  exact (notifications_walk_the_state_machine demoSettings 1000 sixFailureOps
           eq_refl).
Defined.

Lemma generation_stamps_the_epoch_witness :
  generation (fst (step demoStore (OpBeforeRequest 2000))) =
    generation (fst demoStore) /\
  exists c', step demoStore (OpBeforeRequest 2000) =
             (set_counts c' (fst demoStore), snd demoStore).
Proof.
  assert (HG : generation (fst (step demoStore (OpBeforeRequest 2000))) =
               generation (fst demoStore)) by (vm_compute; reflexivity).
  split; [exact HG |].
  destruct (generation_stamps_the_epoch (OpBeforeRequest 2000) demoStore HG)
    as (c' & _ & E).
  exists c'. exact E.
Defined.

Lemma closed_breaker_admits_witness :
  state demoBreaker = StateClosed /\
  exists gen s1, beforeRequest 2000 (demoBreaker, []) = ((gen, None), s1).
Proof.
  assert (HS : state demoBreaker = StateClosed) by reflexivity.
  split; [exact HS |].
  destruct (closed_breaker_admits unit string 2000 2500 succeedingRequest
              demoBreaker [] HS)
    as (gen & s1 & HB & _).
  exists gen, s1. exact HB.
Defined.
